(** * dga_lab_v2: victim, attacker and defender of the DGA lab

    A shallow embedding of the three scripts of the lab

      - [victim_v2.py]   (module [Victim]),
      - [attacker_v2.py] (module [Attacker]),
      - [defende_v2.py]  (module [Defender]),

    together with the library functions they call ([hashlib.sha256],
    [base64.b32encode], the [str] methods), and the properties the
    specification states about them.

    Conventions of the embedding.

    - A Python [str] is a Rocq [string].  The functions on characters are
      those of Python on the code points below 128; the code points from
      128 on, which neither the generated labels nor host names contain,
      are taken as symbols without case that are neither white space nor
      alphanumeric, and [encode("utf-8")] is the identity on them.
    - A Python [int] is a [Z]; a [bytes] object is a [list byte].
    - A Python [float] is an exact number: a real ([R]) in the feature
      vector, a rational ([Q]) for the confidence of the classifier.
      Rounding is not modelled.
    - A function that may raise returns a [result]; the random source and
      the replies of the network are arguments of the functions that
      consume them. *)

From Stdlib Require Import ZArith NArith List String Ascii QArith Reals Lra Lia.
From Stdlib Require Import DecimalString Permutation.
From Stdlib.Strings Require Import Byte.
From stdpp Require Import base gmap sets list strings sorting.

#[local] Set Warnings "-clear-no-such-hyp".

Local Open Scope string_scope.
Local Open Scope list_scope.
Local Open Scope Z_scope.

(** ** Python strings *)

Module PyStr.

Definition code (c : ascii) : N := N_of_ascii c.

Definition in_range (lo hi : N) (c : ascii) : bool :=
  ((lo <=? code c) && (code c <=? hi))%N.

(** [c.isdigit()] *)
Definition isdigit (c : ascii) : bool := in_range 48 57 c.

Definition islower (c : ascii) : bool := in_range 97 122 c.
Definition isupper (c : ascii) : bool := in_range 65 90 c.

(** [c.isalpha()] *)
Definition isalpha (c : ascii) : bool := islower c || isupper c.

(** [c.isalnum()] *)
Definition isalnum (c : ascii) : bool := isalpha c || isdigit c.

(** [c.isspace()]: the characters [str.strip()] removes, which are
    TAB, LF, VT, FF, CR, FS, GS, RS, US and the space. *)
Definition isspace (c : ascii) : bool :=
  in_range 9 13 c || in_range 28 32 c.

(** [c in "aeiou"], for a single character [c]. *)
Definition isvowel (c : ascii) : bool :=
  match c with
  | "a"%char | "e"%char | "i"%char | "o"%char | "u"%char => true
  | _ => false
  end.

Definition lower_char (c : ascii) : ascii :=
  if isupper c then ascii_of_N (code c + 32) else c.

Definition upper_char (c : ascii) : ascii :=
  if islower c then ascii_of_N (code c - 32) else c.

(** [s.lower()] and [s.upper()] *)
Fixpoint lower (s : string) : string :=
  match s with
  | EmptyString => EmptyString
  | String c s' => String (lower_char c) (lower s')
  end.

Fixpoint upper (s : string) : string :=
  match s with
  | EmptyString => EmptyString
  | String c s' => String (upper_char c) (upper s')
  end.

Fixpoint lstrip (s : string) : string :=
  match s with
  | EmptyString => EmptyString
  | String c s' => if isspace c then lstrip s' else s
  end.

Fixpoint rstrip (s : string) : string :=
  match s with
  | EmptyString => EmptyString
  | String c s' =>
      match rstrip s' with
      | EmptyString => if isspace c then EmptyString else String c EmptyString
      | r => String c r
      end
  end.

(** [s.strip()] *)
Definition strip (s : string) : string := rstrip (lstrip s).

(** [ch in s], for a single character [ch]. *)
Fixpoint contains (ch : ascii) (s : string) : bool :=
  match s with
  | EmptyString => false
  | String c s' => if Ascii.eqb c ch then true else contains ch s'
  end.

(** [s.rsplit(ch, 1)] when [ch] occurs in [s]: the parts before and
    after the last occurrence; [None] when [ch] does not occur, where
    Python returns the one-element list [[s]]. *)
Fixpoint rsplit1 (ch : ascii) (s : string) : option (string * string) :=
  match s with
  | EmptyString => None
  | String c s' =>
      match rsplit1 ch s' with
      | Some (h, t) => Some (String c h, t)
      | None => if Ascii.eqb c ch then Some (EmptyString, s') else None
      end
  end.

(** [s.split(ch)[0]]: the part before the first occurrence of [ch],
    all of [s] when there is none. *)
Fixpoint split_head (ch : ascii) (s : string) : string :=
  match s with
  | EmptyString => EmptyString
  | String c s' => if Ascii.eqb c ch then EmptyString else String c (split_head ch s')
  end.

(** [s.replace(ch, "")] *)
Fixpoint remove_char (ch : ascii) (s : string) : string :=
  match s with
  | EmptyString => EmptyString
  | String c s' =>
      if Ascii.eqb c ch then remove_char ch s' else String c (remove_char ch s')
  end.

(** ["".join(c for c in s if p(c))] *)
Fixpoint filter (p : ascii -> bool) (s : string) : string :=
  match s with
  | EmptyString => EmptyString
  | String c s' => if p c then String c (filter p s') else filter p s'
  end.

(** [sum(p(c) for c in s)] *)
Fixpoint count_if (p : ascii -> bool) (s : string) : Z :=
  match s with
  | EmptyString => 0
  | String c s' => (if p c then 1 else 0) + count_if p s'
  end.

(** [s.count(ch)], for a single character [ch]. *)
Definition count (ch : ascii) (s : string) : Z := count_if (Ascii.eqb ch) s.

(** [len(s)] *)
Definition len (s : string) : Z := Z.of_nat (String.length s).

Fixpoint take (n : nat) (s : string) : string :=
  match n, s with
  | S n', String c s' => String c (take n' s')
  | _, _ => EmptyString
  end.

(** [s[:n]]: a negative [n] counts from the end. *)
Definition slice_to (n : Z) (s : string) : string :=
  if 0 <=? n then take (Z.to_nat n) s else take (Z.to_nat (len s + n)) s.

(** The characters of [set(s)], each once, in the order of their first
    occurrence.  Python leaves the iteration order of a set open; the
    two uses below (its size and a sum over it) do not depend on it. *)
Fixpoint distinct (s : string) : list ascii :=
  match s with
  | EmptyString => []
  | String c s' => c :: List.filter (fun d => negb (Ascii.eqb d c)) (distinct s')
  end.

(** [str(n)] for an [int] *)
Definition str_of_int (n : Z) : string := NilZero.string_of_int (Z.to_int n).

(** [s.encode("utf-8")] *)
Definition encode (s : string) : list byte := list_byte_of_string s.

(** [b.decode("utf-8")] *)
Definition decode (b : list byte) : string := string_of_list_byte b.

(** [all(p(c) for c in s)] *)
Fixpoint forall_chars (p : ascii -> bool) (s : string) : bool :=
  match s with
  | EmptyString => true
  | String c s' => p c && forall_chars p s'
  end.

(** [s.startswith(p)] *)
Fixpoint startswith (p s : string) {struct p} : bool :=
  match p, s with
  | EmptyString, _ => true
  | String a p', String b s' => Ascii.eqb a b && startswith p' s'
  | String _ _, EmptyString => false
  end.

(** A string that does not begin with white space. *)
Definition no_lead (s : string) : bool :=
  match s with
  | EmptyString => true
  | String c _ => negb (isspace c)
  end.

(** [s.isascii()]: every character is a code point below 128, where the
    functions above are those of Python. *)
Definition isascii (s : string) : bool :=
  forall_chars (fun c => (code c <? 128)%N) s.

End PyStr.

(** ** Exceptions *)

(** The outcome of a call that may raise.  [exn] stands for the instances
    of [Exception], which is what the handlers of the scripts catch. *)
Inductive result (E A : Type) : Type :=
| Ok (a : A)
| Raise (e : E).
Arguments Ok {E A} a.
Arguments Raise {E A} e.

#[global] Instance result_ret {E} : MRet (result E) := fun _ a => Ok a.

#[global] Instance result_bind {E} : MBind (result E) := fun _ _ k r =>
  match r with
  | Ok a => k a
  | Raise e => Raise e
  end.

(** [try: r  except Exception as e: h e] *)
Definition try_except {E A} (r : result E A) (h : E -> result E A) : result E A :=
  match r with
  | Ok a => Ok a
  | Raise e => h e
  end.


(** ** [hashlib.sha256]

    The hash of FIPS 180-4 on byte strings; 32-bit words are integers
    reduced modulo [2^32]. *)

Module Sha256.

Definition modulus : Z := 2 ^ 32.

Definition add32 (x y : Z) : Z := (x + y) mod modulus.

Definition not32 (x : Z) : Z := Z.lxor x (modulus - 1).

Definition rotr (n x : Z) : Z :=
  Z.lor (Z.shiftr x n) (Z.shiftl x (32 - n) mod modulus).

Definition xor3 (x y z : Z) : Z := Z.lxor (Z.lxor x y) z.

Definition choose (x y z : Z) : Z := Z.lxor (Z.land x y) (Z.land (not32 x) z).

Definition majority (x y z : Z) : Z :=
  xor3 (Z.land x y) (Z.land x z) (Z.land y z).

Definition big_sigma0 (x : Z) : Z := xor3 (rotr 2 x) (rotr 13 x) (rotr 22 x).
Definition big_sigma1 (x : Z) : Z := xor3 (rotr 6 x) (rotr 11 x) (rotr 25 x).
Definition small_sigma0 (x : Z) : Z := xor3 (rotr 7 x) (rotr 18 x) (Z.shiftr x 3).
Definition small_sigma1 (x : Z) : Z := xor3 (rotr 17 x) (rotr 19 x) (Z.shiftr x 10).

Definition round_constants : list Z :=
  [ 0x428A2F98; 0x71374491; 0xB5C0FBCF; 0xE9B5DBA5;
    0x3956C25B; 0x59F111F1; 0x923F82A4; 0xAB1C5ED5;
    0xD807AA98; 0x12835B01; 0x243185BE; 0x550C7DC3;
    0x72BE5D74; 0x80DEB1FE; 0x9BDC06A7; 0xC19BF174;
    0xE49B69C1; 0xEFBE4786; 0x0FC19DC6; 0x240CA1CC;
    0x2DE92C6F; 0x4A7484AA; 0x5CB0A9DC; 0x76F988DA;
    0x983E5152; 0xA831C66D; 0xB00327C8; 0xBF597FC7;
    0xC6E00BF3; 0xD5A79147; 0x06CA6351; 0x14292967;
    0x27B70A85; 0x2E1B2138; 0x4D2C6DFC; 0x53380D13;
    0x650A7354; 0x766A0ABB; 0x81C2C92E; 0x92722C85;
    0xA2BFE8A1; 0xA81A664B; 0xC24B8B70; 0xC76C51A3;
    0xD192E819; 0xD6990624; 0xF40E3585; 0x106AA070;
    0x19A4C116; 0x1E376C08; 0x2748774C; 0x34B0BCB5;
    0x391C0CB3; 0x4ED8AA4A; 0x5B9CCA4F; 0x682E6FF3;
    0x748F82EE; 0x78A5636F; 0x84C87814; 0x8CC70208;
    0x90BEFFFA; 0xA4506CEB; 0xBEF9A3F7; 0xC67178F2 ].

(** The eight working registers, also the chaining value. *)
Record regs : Type := Regs {
  ra : Z; rb : Z; rc : Z; rd : Z; re : Z; rf : Z; rg : Z; rh : Z
}.

Definition initial : regs :=
  Regs 0x6A09E667 0xBB67AE85 0x3C6EF372 0xA54FF53A
       0x510E527F 0x9B05688C 0x1F83D9AB 0x5BE0CD19.

Definition byte_val (b : byte) : Z := Z.of_N (Byte.to_N b).

Definition byte_of_Z (z : Z) : byte :=
  match Byte.of_N (Z.to_N (z mod 256)) with
  | Some b => b
  | None => x00
  end.

(** The padded message: the byte 0x80, zero bytes up to 56 modulo 64,
    then the length in bits on eight bytes, most significant first. *)
Definition be_bytes (n : nat) (z : Z) : list byte :=
  List.map (fun i => byte_of_Z (Z.shiftr z (8 * Z.of_nat i))) (List.rev (seq 0 n)).

Definition pad (msg : list byte) : list byte :=
  let l := Z.of_nat (List.length msg) in
  msg ++ x80 :: List.repeat x00 (Z.to_nat ((- (l + 9)) mod 64)) ++ be_bytes 8 (8 * l).

Fixpoint words (bs : list byte) : list Z :=
  match bs with
  | b0 :: b1 :: b2 :: b3 :: rest =>
      (((byte_val b0 * 256 + byte_val b1) * 256 + byte_val b2) * 256 + byte_val b3)
        :: words rest
  | _ => []
  end.

(** The message schedule, latest word first: [extend n w] adds [n] words
    to the words [w] already there. *)
Fixpoint extend (n : nat) (w : list Z) : list Z :=
  match n with
  | O => w
  | S n' =>
      let next :=
        add32 (add32 (small_sigma1 (nth 1 w 0)) (nth 6 w 0))
              (add32 (small_sigma0 (nth 14 w 0)) (nth 15 w 0)) in
      extend n' (next :: w)
  end.

Definition schedule (block : list Z) : list Z :=
  List.rev (extend 48 (List.rev block)).

Definition round (s : regs) (kw : Z * Z) : regs :=
  let t1 := add32 (add32 (add32 (rh s) (big_sigma1 (re s)))
                         (add32 (choose (re s) (rf s) (rg s)) (fst kw)))
                  (snd kw) in
  let t2 := add32 (big_sigma0 (ra s)) (majority (ra s) (rb s) (rc s)) in
  Regs (add32 t1 t2) (ra s) (rb s) (rc s) (add32 (rd s) t1) (re s) (rf s) (rg s).

Definition compress (h : regs) (block : list Z) : regs :=
  let s := fold_left round (combine round_constants (schedule block)) h in
  Regs (add32 (ra h) (ra s)) (add32 (rb h) (rb s))
       (add32 (rc h) (rc s)) (add32 (rd h) (rd s))
       (add32 (re h) (re s)) (add32 (rf h) (rf s))
       (add32 (rg h) (rg s)) (add32 (rh h) (rh s)).

Fixpoint blocks (fuel : nat) (ws : list Z) : list (list Z) :=
  match fuel, ws with
  | S fuel', _ :: _ => firstn 16 ws :: blocks fuel' (skipn 16 ws)
  | _, _ => []
  end.

Definition output (h : regs) : list byte :=
  be_bytes 4 (ra h) ++ be_bytes 4 (rb h) ++ be_bytes 4 (rc h) ++ be_bytes 4 (rd h) ++
  be_bytes 4 (re h) ++ be_bytes 4 (rf h) ++ be_bytes 4 (rg h) ++ be_bytes 4 (rh h).

(** [hashlib.sha256(msg).digest()] *)
Definition digest (msg : list byte) : list byte :=
  let ws := words (pad msg) in
  output (fold_left compress (blocks (List.length ws) ws) initial).

(** [hashlib.sha256(msg).hexdigest()] *)
Definition hex_digit (n : Z) : ascii :=
  match String.get (Z.to_nat n) "0123456789abcdef" with
  | Some c => c
  | None => "?"%char
  end.

Definition hexdigest (msg : list byte) : string :=
  fold_right (fun b s => String (hex_digit (byte_val b / 16))
                           (String (hex_digit (byte_val b mod 16)) s))
             EmptyString (digest msg).

End Sha256.

(** ** [base64.b32encode] *)

Module Base32.

Definition alphabet : string := "ABCDEFGHIJKLMNOPQRSTUVWXYZ234567".

Definition symbol (i : Z) : byte :=
  match String.get (Z.to_nat i) alphabet with
  | Some c => byte_of_ascii c
  | None => x00
  end.

(** The eight symbols of five bytes, read as a number of 40 bits. *)
Definition quintet (b0 b1 b2 b3 b4 : byte) : list byte :=
  let c := (((Sha256.byte_val b0 * 256 + Sha256.byte_val b1) * 256
             + Sha256.byte_val b2) * 256 + Sha256.byte_val b3) * 256
           + Sha256.byte_val b4 in
  List.map (fun k => symbol (Z.land (Z.shiftr c (5 * Z.of_nat k)) 31))
           [7; 6; 5; 4; 3; 2; 1; 0]%nat.

Definition equals (n : nat) : list byte := List.repeat "="%byte n.

(** A last group of fewer than five bytes is filled with zero bytes, and
    the symbols that carry no input bit are replaced by ['=']. *)
Fixpoint b32encode (bs : list byte) : list byte :=
  match bs with
  | [] => []
  | [b0] => firstn 2 (quintet b0 x00 x00 x00 x00) ++ equals 6
  | [b0; b1] => firstn 4 (quintet b0 b1 x00 x00 x00) ++ equals 4
  | [b0; b1; b2] => firstn 5 (quintet b0 b1 b2 x00 x00) ++ equals 3
  | [b0; b1; b2; b3] => firstn 7 (quintet b0 b1 b2 b3 x00) ++ equals 1
  | b0 :: b1 :: b2 :: b3 :: b4 :: rest => quintet b0 b1 b2 b3 b4 ++ b32encode rest
  end.

End Base32.

(** The exceptions of the scripts and of the libraries under them.  Every
    class is a subclass of [Exception]; [JSONDecodeError] is the one of
    [requests], both a [RequestException] and a [ValueError]. *)
Inductive exn : Type :=
| RequestException (msg : string)
| JSONDecodeError (msg : string)
| ValueError (msg : string)
| AttributeError (msg : string)
| IndexError (msg : string)
| OverflowError (msg : string)
| OtherException (msg : string).

(** [str(e)] *)
Definition exn_str (e : exn) : string :=
  match e with
  | RequestException m | JSONDecodeError m | ValueError m | AttributeError m
  | IndexError m | OverflowError m | OtherException m => m
  end.

(** ** victim_v2.py *)

Module Victim.

Definition SEED : string := "spreadlove".
Definition SET_SIZE : nat := 10.
Definition TLD_LIST : list string :=
  [".com"; ".net"; ".xyz"; ".top"; ".site"; ".online"; ".club"; ".tk"; ".pw"; ".cc"].

(** The default of the parameter [label_length]. *)
Definition DEFAULT_LABEL_LENGTH : Z := 12.

Definition generate_domain_label
    (seed timestamp_str : string) (index : Z) (label_length : Z) : string :=
  let input_bytes :=
    PyStr.encode (seed +:+ ":" +:+ timestamp_str +:+ ":" +:+ PyStr.str_of_int index) in
  let digest := Sha256.digest input_bytes in
  let b32 :=
    PyStr.remove_char "=" (PyStr.lower (PyStr.decode (Base32.b32encode digest))) in
  let label := PyStr.slice_to label_length (PyStr.filter PyStr.isalnum b32) in
  match label with
  | String c rest => if PyStr.isdigit c then String "a" rest else label
  | EmptyString => label
  end.

(** The [while] loop of [generate_set], from the index [i] and the labels
    collected so far; [None] when [fuel] iterations do not end it. *)
Fixpoint collect_labels (fuel : nat) (seed timestamp_str : string) (i : Z)
    (labels : list string) : option (list string) :=
  if (length labels <? SET_SIZE)%nat then
    match fuel with
    | O => None
    | S fuel' =>
        let label := generate_domain_label seed timestamp_str i DEFAULT_LABEL_LENGTH in
        collect_labels fuel' seed timestamp_str (i + 1)
          (if decide (label ∈ labels) then labels else labels ++ [label])
    end
  else Some labels.

(** [generate_set(seed, set_index, set_time)], given the time window
    [timestamp_str] that line 78 formats from [set_time]; [set_index] is
    not used by the function. *)
Definition generate_set (fuel : nat) (seed timestamp_str : string)
    : option (list string) :=
  labels ← collect_labels fuel seed timestamp_str 0 [];
  Some (imap (fun idx label =>
                label +:+ nth (idx mod length TLD_LIST)%nat TLD_LIST "") labels).

(** A decoded JSON document. *)
#[local] Unset Elimination Schemes.
Inductive json : Type :=
| JNull
| JBool (b : bool)
| JNum (q : Q)
| JStr (s : string)
| JArr (items : list json)
| JObj (items : list (string * json)).
#[local] Set Elimination Schemes.

(** [data.get(key, dflt)]: a [dict] looks the key up, any other value has
    no attribute [get]. *)
Fixpoint assoc (key : string) (items : list (string * json)) : option json :=
  match items with
  | [] => None
  | (k, v) :: rest => if String.eqb k key then Some v else assoc key rest
  end.

Definition get (data : json) (key : string) (dflt : json) : result exn json :=
  match data with
  | JObj items => Ok (default dflt (assoc key items))
  | _ => Raise (AttributeError "object has no attribute 'get'")
  end.

(** What the HTTP library hands back. *)
Record http_response : Type := HttpResponse {
  raise_for_status : result exn unit;
  response_json : result exn json;
  status_code : Z;
  text : string
}.

(** What the victim does to the outside, in order. *)
Inductive event : Type :=
| Log (msg : string)
| PostToDefender (domain : string)
| ConnectToAttacker (domain : string).

(** The dictionary [send_to_defender] returns. *)
Record defender_answer : Type := Answer {
  verdict : json;
  detail : json + string
}.

Section Handling.

(** [str(x)] of a decoded JSON document, of a defender answer's detail and
    [repr] of a text, as the f-strings of the log lines format them. *)
Variable str_of_json : json -> string.
Variable repr : string -> string.

Definition str_of_detail (d : json + string) : string :=
  match d with
  | inl data => str_of_json data
  | inr s => s
  end.

(** [send_to_defender(domain)], where [post] is the outcome of
    [requests.post(DEFENDER_URL, json=payload, timeout=timeout)]. *)
Definition send_to_defender (domain : string) (post : result exn http_response)
    : list event * result exn defender_answer :=
  let attempt : result exn defender_answer :=
    resp ← post;
    _ ← raise_for_status resp;
    data ← response_json resp;
    verdict ← get data "verdict" (JStr "UNKNOWN");
    Ok (Answer verdict (inl data)) in
  match attempt with
  | Ok a => ([PostToDefender domain], Ok a)
  | Raise ((RequestException _ | JSONDecodeError _) as e) =>
      ([PostToDefender domain;
        Log ("ERROR: cannot contact Defender_v2 (" +:+ exn_str e +:+ ") for domain " +:+ domain)],
       Ok (Answer (JStr "UNKNOWN") (inr (exn_str e))))
  | Raise (ValueError _) =>
      ([PostToDefender domain;
        Log ("ERROR: Defender_v2 returned non-JSON response for domain " +:+ domain)],
       Ok (Answer (JStr "UNKNOWN") (inr "Non-JSON response")))
  | Raise e => ([PostToDefender domain], Raise e)
  end.

(** [simulate_connection(domain)], where [conn] is the outcome of the
    [requests.get] to the attacker with the [Host] header [domain]. *)
Definition simulate_connection (domain : string) (conn : result exn http_response)
    : list event * result exn unit :=
  match conn with
  | Ok r =>
      ([ConnectToAttacker domain;
        Log ("Connection attempt to " +:+ domain +:+ " (via attacker_v2) returned status "
             +:+ PyStr.str_of_int (status_code r) +:+ ", body: " +:+ repr (text r))],
       Ok tt)
  | Raise ((RequestException _ | JSONDecodeError _) as e) =>
      ([ConnectToAttacker domain;
        Log ("Connection attempt to " +:+ domain +:+ " failed: " +:+ exn_str e)],
       Ok tt)
  | Raise e => ([ConnectToAttacker domain], Raise e)
  end.

(** [verdict == "NOT_DGA"] and the like: a decoded JSON value equals a
    [str] only when it is that string. *)
Definition is_str (v : json) (s : string) : bool :=
  match v with
  | JStr t => String.eqb t s
  | _ => false
  end.

(** [handle_domain(domain)] *)
Definition handle_domain (domain : string)
    (post conn : result exn http_response) : list event * result exn unit :=
  let '(sent, resp) := send_to_defender domain post in
  let before := Log ("Generated/Requested domain: " +:+ domain) :: sent in
  match resp with
  | Raise e => (before, Raise e)
  | Ok resp =>
      let verdict := verdict resp in
      let logged :=
        before ++ [Log ("Defender_v2 verdict for " +:+ domain +:+ ": " +:+ str_of_json verdict
                        +:+ "  details=" +:+ str_of_detail (detail resp))] in
      if is_str verdict "NOT_DGA" then
        let '(made, r) := simulate_connection domain conn in
        (logged ++ Log ("VERDICT NOT_DGA: attempting connection to " +:+ domain) :: made, r)
      else if is_str verdict "DGA" then
        (logged ++ [Log ("VERDICT DGA: blocking " +:+ domain +:+ " (no connection)")], Ok tt)
      else
        (logged ++ [Log ("VERDICT UNKNOWN: default action = block " +:+ domain)], Ok tt)
  end.

End Handling.

End Victim.

(** ** [random.sample]

    The branch the library takes for a population of at most 21 elements,
    which covers the population of [SET_SIZE] labels it is called on: the
    elements not yet drawn are kept at the front of a pool, and each draw
    moves the last of them into the place of the one drawn.  The random
    source is the sequence [rnd] of its raw draws; [randbelow(m)] is the
    next of them reduced below [m]. *)

Module Random.

Fixpoint draw {A} (rnd : nat -> nat) (i k : nat) (pool : list A) : list A :=
  match k with
  | O => []
  | S k' =>
      let m := length pool in
      let j := (rnd i mod m)%nat in
      match pool !! j, pool !! (m - 1)%nat with
      | Some x, Some y => x :: draw rnd (S i) k' (take (m - 1) (<[j := y]> pool))
      | _, _ => []
      end
  end.

Definition sample {A} (rnd : nat -> nat) (population : list A) (k : nat)
    : result exn (list A) :=
  if decide (k ≤ length population)%nat
  then Ok (draw rnd 0 k population)
  else Raise (ValueError "Sample larger than population or is negative").

End Random.

(** ** attacker_v2.py *)

Module Attacker.

Definition SEED : string := "spreadlove".
Definition SET_SIZE : nat := 10.
Definition ACTIVE_PER_SET : nat := 5.
Definition LABEL_LENGTH : Z := 12.
Definition ALLOWED_DOMAINS : gset string :=
  {[ "google.com"; "microsoft.com"; "facebook.com" ]}.

Definition generate_domain_label
    (seed timestamp_str : string) (index : Z) (label_length : Z) : string :=
  let input_bytes :=
    PyStr.encode (seed +:+ ":" +:+ timestamp_str +:+ ":" +:+ PyStr.str_of_int index) in
  let digest := Sha256.digest input_bytes in
  let b32 :=
    PyStr.remove_char "=" (PyStr.lower (PyStr.decode (Base32.b32encode digest))) in
  let label := PyStr.slice_to label_length (PyStr.filter PyStr.isalnum b32) in
  match label with
  | String c rest => if PyStr.isdigit c then String "a" rest else label
  | EmptyString => label
  end.

(** The [while] loop of [generate_set]. *)
Fixpoint collect_labels (fuel : nat) (seed timestamp_str : string) (i : Z)
    (labels : list string) : option (list string) :=
  if (length labels <? SET_SIZE)%nat then
    match fuel with
    | O => None
    | S fuel' =>
        let label := generate_domain_label seed timestamp_str i LABEL_LENGTH in
        collect_labels fuel' seed timestamp_str (i + 1)
          (if decide (label ∈ labels) then labels else labels ++ [label])
    end
  else Some labels.

(** [generate_set(seed, set_time)], given the time window [timestamp_str]
    that line 70 formats from [set_time]. *)
Definition generate_set (fuel : nat) (seed timestamp_str : string)
    : option (list string) :=
  collect_labels fuel seed timestamp_str 0 [].

(** The global state: [current_labels] and [current_active]. *)
Record state : Type := State {
  current_labels : list string;
  current_active : gset string
}.

Definition initial_state : state := State [] ∅.

(** One turn of the loop of [rotate_sets_loop] up to the end of the block
    under [state_lock]: the time window is that of [time.time()], the
    draws those of the random source.  [None] when [generate_set] does
    not return within [fuel] iterations. *)
Definition rotate (fuel : nat) (timestamp_str : string) (rnd : nat -> nat)
    (st : state) : option (result exn state) :=
  labels ← generate_set fuel SEED timestamp_str;
  Some (picked ← Random.sample rnd labels (Nat.min ACTIVE_PER_SET (length labels));
        let active : gset string := list_to_set picked in
        Ok (State ([] ++ labels) (∅ ∪ active))).

(** [domain_label_from_domain(domain)] *)
Definition domain_label_from_domain (domain : string) : string :=
  let domain := PyStr.lower (PyStr.strip domain) in
  if PyStr.contains "." domain then
    match PyStr.rsplit1 "." domain with
    | Some (name, _) => name
    | None => domain
    end
  else domain.

(** An HTTP response: [make_response(body, status)] with its
    [Content-Type] set, or the pair [(body, status)], which leaves the
    content type to the framework. *)
Record response : Type := Response {
  body : string;
  status : Z;
  content_type : option string
}.

(** The domain the handler works on: the [Host] header up to its port,
    else the first segment of the path, in lower case. *)
Definition requested_domain (host_header : option string) (path : string) : string :=
  let host := PyStr.lower (PyStr.split_head ":" (default "" host_header)) in
  if String.eqb host "" then PyStr.lower (PyStr.split_head "/" path) else host.

(** The decision of [catch_all] on the requested domain, for the peer
    address [src] and the snapshot of the state: the response and the
    line it logs. *)
Definition decide_request (requested_domain src : string) (st : state)
    : response * string :=
  let label := domain_label_from_domain requested_domain in
  let labels_snapshot := current_labels st in
  let active_snapshot := current_active st in
  if decide (requested_domain ∈ ALLOWED_DOMAINS) then
    (Response ("hi from " +:+ requested_domain) 200 (Some "text/plain"),
     "Allowed domain request from " +:+ src +:+ " for " +:+ requested_domain
       +:+ " -> replying greeting")
  else if decide (label ∈ labels_snapshot) then
    if decide (label ∈ active_snapshot) then
      (Response "C2 server connected" 200 (Some "text/plain"),
       "C2 ACCEPT: " +:+ requested_domain +:+ " from " +:+ src
         +:+ " -> replying 'C2 server connected'")
    else
      (Response "" 404 None,
       "DROPPED (not active): " +:+ requested_domain +:+ " from " +:+ src
         +:+ " (label in set but not in active C2)")
  else
    (Response "" 404 None,
     "IGNORED: " +:+ requested_domain +:+ " from " +:+ src
       +:+ " (not an attacker_v2 label)").

(** [catch_all(path)] on a request with the given [Host] header and peer
    address: the function that handles a request, once Flask has routed
    the request to it.  The routing itself is not modelled; the rules send
    a [GET] of [/health] to [health()], and [/] takes no [POST]. *)
Definition catch_all (host_header : option string) (path src : string) (st : state)
    : response * string :=
  decide_request (requested_domain host_header path) src st.

End Attacker.

(** ** defende_v2.py *)

Module Defender.

(** [math.log2] *)
Definition log2 (x : R) : R := (ln x / ln 2)%R.

(** [sum(xs)] *)
Definition sum (xs : list R) : R := fold_left Rplus xs 0%R.

Definition shannon_entropy (s : string) : R :=
  if String.eqb s "" then 0%R
  else
    let probs :=
      map (fun c => (c / IZR (PyStr.len s))%R)
          (map (fun x => IZR (PyStr.count x s)) (PyStr.distinct s)) in
    (- sum (map (fun p => p * log2 p) probs))%R.

(** The list [extract_features_from_domain] returns, by position. *)
Record features : Type := Features {
  feat_length : Z;
  feat_digits : Z;
  feat_letters : Z;
  feat_unique_chars : Z;
  feat_vowels : Z;
  feat_consonants : Z;
  feat_digit_ratio : R;
  feat_entropy : R
}.

(** [domain.rsplit(".", 1)[0]] if ["." in domain] else [domain] *)
Definition name_of (domain : string) : string :=
  if PyStr.contains "." domain then
    match PyStr.rsplit1 "." domain with
    | Some (name, _) => name
    | None => domain
    end
  else domain.

Definition extract_features_from_domain (domain : string) : features :=
  let domain := PyStr.lower (PyStr.strip domain) in
  let name := name_of domain in
  let length := PyStr.len name in
  let digits := PyStr.count_if PyStr.isdigit name in
  let letters := PyStr.count_if PyStr.isalpha name in
  let vowels := PyStr.count_if PyStr.isvowel name in
  let consonants := letters - vowels in
  let unique_chars := Z.of_nat (List.length (PyStr.distinct name)) in
  let digit_ratio := if 0 <? length then (IZR digits / IZR length)%R else 0%R in
  let entropy := shannon_entropy name in
  Features length digits letters unique_chars vowels consonants digit_ratio entropy.

(** A [float]: finite, infinite or not a number. *)
Inductive pyfloat : Type :=
| Finite (q : Q)
| Infinite
| NotANumber.

(** A class label as the model predicts it: an integer, a float, or any
    other object, given by its [str]. *)
Inductive prediction : Type :=
| PInt (n : Z)
| PFloat (x : pyfloat)
| PStr (s : string).

(** [int(pred)] *)
Definition int_of (p : prediction) : result exn Z :=
  match p with
  | PInt n => Ok n
  | PFloat (Finite q) => Ok (Z.quot (Qnum q) (Zpos (Qden q)))
  | PFloat Infinite => Raise (OverflowError "cannot convert float infinity to integer")
  | PFloat NotANumber => Raise (ValueError "cannot convert float NaN to integer")
  | PStr s => Raise (ValueError "invalid literal for int()")
  end.

(** [a == b] on class labels *)
Definition prediction_eqb (a b : prediction) : bool :=
  match a, b with
  | PInt m, PInt n => m =? n
  | PInt m, PFloat (Finite q) | PFloat (Finite q), PInt m => Qeq_bool (inject_Z m) q
  | PFloat (Finite p), PFloat (Finite q) => Qeq_bool p q
  | PFloat Infinite, PFloat Infinite => true
  | PStr s, PStr t => String.eqb s t
  | _, _ => false
  end.

(** [xs.index(x)] *)
Fixpoint index_of (x : prediction) (xs : list prediction) : result exn nat :=
  match xs with
  | [] => Raise (ValueError "x is not in list")
  | y :: ys => if prediction_eqb y x then Ok O else n ← index_of x ys; Ok (S n)
  end.

(** [xs[i]] *)
Definition item {A} (xs : list A) (i : nat) : result exn A :=
  match xs !! i with
  | Some x => Ok x
  | None => Raise (IndexError "index out of range")
  end.

(** The trained decision tree, by the three members the script uses. *)
Record classifier : Type := Classifier {
  predict : features -> result exn (list prediction);
  predict_proba : features -> result exn (list (list Q));
  classes_ : list prediction
}.

(** The globals [manual_block] and [model]. *)
Record state : Type := State {
  manual_block : gset string;
  model : option (classifier * list string)
}.

(** The verdict for a predicted class: numbers map 1 to DGA and all else
    to NOT_DGA, any other label is passed on in upper case. *)
Definition verdict_of (pred : prediction) : result exn string :=
  match pred with
  | PInt _ | PFloat _ =>
      n ← int_of pred; Ok (if n =? 1 then "DGA" else "NOT_DGA")
  | PStr s => Ok (PyStr.upper s)
  end.

(** The inner [try] of [classify_domain]: the probability the model gives
    to the predicted class. *)
Definition confidence_of (clf : classifier) (X : features) (pred : prediction)
    : result exn Q :=
  proba ← predict_proba clf X;
  let classes := classes_ clf in
  class_index ← index_of pred classes;
  row ← item proba 0;
  item row class_index.

(** [classify_domain(domain)]: the lines it logs and what it returns, on a
    standard output that takes the line of [log]; [Printing.classify_domain]
    below is the function on any standard output. *)
Definition classify_domain (st : state) (domain : string)
    : list string * result exn (string * Q * string) :=
  let domain := PyStr.lower (PyStr.strip domain) in
  if decide (domain ∈ manual_block st) then ([], Ok ("DGA", 1%Q, "manual_block"))
  else
    let feats := extract_features_from_domain domain in
    let X := feats in
    match model st with
    | None => ([], Ok ("NOT_DGA", 0%Q, "fallback_no_model"))
    | Some (clf, feature_cols) =>
        let attempt : result exn (string * Q * string) :=
          preds ← predict clf X;
          pred ← item preds 0;
          verdict ← verdict_of pred;
          confidence ← try_except (confidence_of clf X pred) (fun _ => Ok 0%Q);
          Ok (verdict, confidence, "model") in
        match attempt with
        | Ok r => ([], Ok r)
        | Raise e =>
            (["Model prediction error for domain " +:+ domain +:+ ": " +:+ exn_str e],
             Ok ("UNKNOWN", 0%Q, "error"))
        end
    end.

(** [api_block] and [api_unblock] on a request whose JSON body holds the
    text [domain] under the key ["domain"]: the new state and the status of
    the response. *)
Definition api_block (domain : string) (st : state) : state * Z :=
  let domain := PyStr.lower (PyStr.strip domain) in
  (State ({[ domain ]} ∪ manual_block st) (model st), 200).

Definition api_unblock (domain : string) (st : state) : state * Z :=
  let domain := PyStr.lower (PyStr.strip domain) in
  if decide (domain ∈ manual_block st)
  then (State (manual_block st ∖ {[ domain ]}) (model st), 200)
  else (st, 404).

End Defender.

(** ** victim_v2.py: the two loops *)

Module VictimLoops.

(** What the network answers while one domain is handled: the defender to
    the check, the attacker to the connection. *)
Record replies : Type := Replies {
  from_defender : result exn Victim.http_response;
  from_attacker : result exn Victim.http_response
}.

Section Loops.

Variable str_of_json : Victim.json -> string.
Variable repr : string -> string.

(** The [for] loop of [dga_generation_loop] over the domains of a set, from
    the position [i]: [poll i] is [stop_event.is_set()] at the turn of the
    domain at position [i], [net i] what the network answers for it.  An
    exception of [handle_domain] ends the loop, and the thread. *)
Fixpoint handle_set (poll : nat -> bool) (net : nat -> replies) (i : nat)
    (domains : list string) : list Victim.event * result exn unit :=
  match domains with
  | [] => ([], Ok tt)
  | d :: rest =>
      if poll i then ([], Ok tt)
      else
        match Victim.handle_domain str_of_json repr d
                (from_defender (net i)) (from_attacker (net i)) with
        | (events, Ok _) =>
            let '(later, r) := handle_set poll net (S i) rest in
            (events ++ later, r)
        | (events, Raise e) => (events, Raise e)
        end
  end.

(** The domain an interactive query is made for. *)
Definition interactive_domain (user_input : string) : string :=
  if PyStr.contains "." user_input then user_input else user_input +:+ ".com".

(** The [while] loop of [interactive_input_loop] on the lines that
    [input()] returns, the end of the list being the end of the input;
    [net i] is what the network answers for the line at position [i]. *)
Fixpoint read_lines (net : nat -> replies) (i : nat) (lines : list string)
    : list Victim.event * result exn unit :=
  match lines with
  | [] => ([Victim.Log "Interactive input terminated (CTRL-C or EOF). Stopping."], Ok tt)
  | line :: rest =>
      let user_input := PyStr.strip line in
      if String.eqb (PyStr.lower user_input) "exit" then
        ([Victim.Log "Exit requested by user."], Ok tt)
      else if String.eqb user_input "" then read_lines net (S i) rest
      else
        match Victim.handle_domain str_of_json repr (interactive_domain user_input)
                (from_defender (net i)) (from_attacker (net i)) with
        | (events, Ok _) =>
            let '(later, r) := read_lines net (S i) rest in
            (events ++ later, r)
        | (events, Raise e) => (events, Raise e)
        end
  end.

(** [interactive_input_loop(stop_event)] *)
Definition interactive_input_loop (net : nat -> replies) (lines : list string)
    : list Victim.event * result exn unit :=
  let '(events, r) := read_lines net 0 lines in
  (Victim.Log
     "Interactive input ready. Type domain names and press Enter. Type 'exit' to quit."
     :: events, r).

End Loops.

End VictimLoops.

(** ** attacker_v2.py: the health endpoint *)

Module AttackerHealth.

Record report : Type := Report {
  status : string;
  active_sample : list string;
  labels_count : Z
}.

(** [health()]: [list(current_active)] lists the set in the order of
    [elements]; Python leaves the order open. *)
Definition health (st : Attacker.state) : report :=
  let active := elements (Attacker.current_active st) in
  Report "ok" (take 5 active) (Z.of_nat (length (Attacker.current_labels st))).

End AttackerHealth.

(** ** defende_v2.py: the endpoints and the two files *)

Module DefenderApi.

Definition MAX_RECENT : nat := 200.

(** The number of queries the file keeps. *)
Definition MAX_PERSISTED : nat := 1000.

(** An entry of the history of queries. *)
Record query : Type := Query {
  q_domain : string;
  q_verdict : string;
  q_confidence : Q;
  q_source : string;
  q_timestamp : string
}.

(** The dictionary of an entry, as [json.dump] writes it and [jsonify]
    sends it. *)
Definition query_json (q : query) : Victim.json :=
  Victim.JObj [("domain", Victim.JStr (q_domain q));
               ("verdict", Victim.JStr (q_verdict q));
               ("confidence", Victim.JNum (q_confidence q));
               ("source", Victim.JStr (q_source q));
               ("timestamp", Victim.JStr (q_timestamp q))].

(** A JSON file: absent, with a content that [json.load] rejects, or
    with the list it holds.  The file system itself is taken to work. *)
Definition file (A : Type) : Type := option (result exn (list A)).

(** The file of the queries: absent, with a content that [json.load]
    rejects, or with the JSON document it holds, which is a list when
    [persist_query] has written it and can be any document otherwise. *)
Definition document : Type := option (result exn Victim.json).

(** The process: the globals of the classifier, the queries kept in
    memory, and the files of the queries and of the blocked domains. *)
Record server : Type := Server {
  globals : Defender.state;
  recent_queries : list query;
  queries_file : document;
  blocked_file : file string
}.

(** [xs[-n:]] *)
Definition last_items {A} (n : nat) (xs : list A) : list A :=
  drop (length xs - n) xs.

(** The manual block list read at start-up. *)
Definition load_blocked (f : file string) : gset string :=
  match f with
  | Some (Ok domains) => list_to_set domains
  | Some (Raise _) => ∅
  | None => ∅
  end.

(** [persist_blocked()]: the content written to the file. *)
Definition persist_blocked (manual_block : gset string) : file string :=
  Some (Ok (merge_sort String.le (elements manual_block))).

(** [persist_query(q)]: the lines it logs and the content of the file
    afterwards.  A document that is no list has no [append]: the
    [AttributeError] is caught by the outer handler, which logs it, and
    nothing is written. *)
Definition persist_query (q : query) (f : document) : list string * document :=
  match f with
  | Some content =>
      let data := match content with Ok data => data | Raise _ => Victim.JArr [] end in
      match data with
      | Victim.JArr items =>
          ([], Some (Ok (Victim.JArr (last_items MAX_PERSISTED (items ++ [query_json q])))))
      | _ =>
          (["ERROR: cannot persist query: "
              +:+ exn_str (AttributeError "object has no attribute 'append'")], f)
      end
  | None => ([], Some (Ok (Victim.JArr [query_json q])))
  end.

(** What an endpoint answers. *)
Inductive reply : Type :=
| BadRequest (error : string)
| Verdict (verdict : string) (confidence : Q) (source : string)
| Queries (newest_first : list query)
| Status (status : string) (domain : string) (code : Z)
| Health (status : string) (model_loaded : bool).


Section Endpoints.

(** [round(float(c), 4)] and the format [{c:.3f}] of the log line. *)
Variable round4 : Q -> Q.
Variable fixed3 : Q -> string.

(** [api_check()] on a request whose JSON body holds the text [domain]
    under the key ["domain"], or none ([None]); [ts] is the time stamp of
    the clock.  The lines logged, and the server and the reply unless
    [classify_domain] raises.  The standard output is taken to take the
    lines of [log]; [Printing.api_check] is the function on any standard
    output. *)
Definition api_check (body : option string) (ts : string) (sv : server)
    : list string * result exn (server * reply) :=
  match body with
  | None => ([], Ok (sv, BadRequest "missing 'domain' in JSON"))
  | Some domain =>
      let domain := PyStr.strip domain in
      let '(logged, classified) := Defender.classify_domain (globals sv) domain in
      match classified with
      | Raise e => (logged, Raise e)
      | Ok (verdict, confidence, source) =>
          let record := Query domain verdict (round4 confidence) source ts in
          let appended := recent_queries sv ++ [record] in
          let recent :=
            if (MAX_RECENT <? length appended)%nat then drop 1 appended else appended in
          let '(unsaved, saved) := persist_query record (queries_file sv) in
          (logged ++ unsaved
             ++ ["CHECK: " +:+ domain +:+ " => " +:+ verdict +:+ " (conf="
                   +:+ fixed3 confidence +:+ ") src=" +:+ source],
           Ok (Server (globals sv) recent saved (blocked_file sv),
               Verdict verdict (round4 confidence) source))
      end
  end.

End Endpoints.


(** [api_block()] and [api_unblock()] on the server, with the file of the
    blocked domains; [None] is a body without ["domain"]. *)
Definition handle_block (body : option string) (sv : server) : server * reply :=
  match body with
  | None => (sv, BadRequest "missing 'domain' in JSON")
  | Some domain =>
      let '(st, code) := Defender.api_block domain (globals sv) in
      (Server st (recent_queries sv) (queries_file sv)
              (persist_blocked (Defender.manual_block st)),
       Status "ok" (PyStr.lower (PyStr.strip domain)) code)
  end.


(** [health()] *)
Definition health (sv : server) : reply :=
  Health "ok" (match Defender.model (globals sv) with Some _ => true | None => false end).

(** The server after a restart with the same files and the model [m]. *)
Definition restart (m : option (Defender.classifier * list string)) (sv : server)
    : server :=
  Server (Defender.State (load_blocked (blocked_file sv)) m) []
         (queries_file sv) (blocked_file sv).

End DefenderApi.

(** ** defende_v2.py: a standard output that can fail

    [log] prints its line before it writes it to the log file, and the
    call of [print] is in no [try] block.  An exception of [print] (a
    [UnicodeEncodeError], which is a [ValueError], when the line holds a
    character the encoding of the standard output lacks; an [OSError]
    when the output is closed) leaves [log] and reaches its caller.  The
    definitions of [Defender] and of [DefenderApi] above are the ones below
    for a [print] that returns. *)

Module Printing.

Section Stdout.

(** [print(line, flush=True)] on the line of [log] for a message. *)
Variable print : string -> result exn unit.

(** [log(msg)]: the lines it has logged, and whether it returns. *)
Definition log (msg : string) : list string * result exn unit :=
  match print msg with
  | Ok _ => ([msg], Ok tt)
  | Raise e => ([], Raise e)
  end.

(** [classify_domain(domain)] *)
Definition classify_domain (st : Defender.state) (domain : string)
    : list string * result exn (string * Q * string) :=
  let domain := PyStr.lower (PyStr.strip domain) in
  if decide (domain ∈ Defender.manual_block st) then ([], Ok ("DGA", 1%Q, "manual_block"))
  else
    let feats := Defender.extract_features_from_domain domain in
    let X := feats in
    match Defender.model st with
    | None => ([], Ok ("NOT_DGA", 0%Q, "fallback_no_model"))
    | Some (clf, feature_cols) =>
        let attempt : result exn (string * Q * string) :=
          preds ← Defender.predict clf X;
          pred ← Defender.item preds 0;
          verdict ← Defender.verdict_of pred;
          confidence ← try_except (Defender.confidence_of clf X pred) (fun _ => Ok 0%Q);
          Ok (verdict, confidence, "model") in
        match attempt with
        | Ok r => ([], Ok r)
        | Raise e =>
            let '(logged, printed) :=
              log ("Model prediction error for domain " +:+ domain +:+ ": " +:+ exn_str e) in
            (logged, _ ← printed; Ok ("UNKNOWN", 0%Q, "error"))
        end
    end.

(** [persist_query(q)]: the lines logged, and the content of the file
    afterwards unless the [log] of the handler raises. *)
Definition persist_query (q : DefenderApi.query) (f : DefenderApi.document)
    : list string * result exn DefenderApi.document :=
  match f with
  | Some content =>
      let data := match content with Ok data => data | Raise _ => Victim.JArr [] end in
      match data with
      | Victim.JArr items =>
          ([], Ok (Some (Ok (Victim.JArr
                               (DefenderApi.last_items DefenderApi.MAX_PERSISTED
                                  (items ++ [DefenderApi.query_json q]))))))
      | _ =>
          let '(logged, printed) :=
            log ("ERROR: cannot persist query: "
                   +:+ exn_str (AttributeError "object has no attribute 'append'")) in
          (logged, _ ← printed; Ok f)
      end
  | None => ([], Ok (Some (Ok (Victim.JArr [DefenderApi.query_json q]))))
  end.

(** [round(float(c), 4)] and the format [{c:.3f}] of the log line. *)
Variable round4 : Q -> Q.
Variable fixed3 : Q -> string.

(** [api_check()]: the lines logged, the server afterwards, and the reply
    or the exception that leaves the handler.  The entry is in the history
    before [persist_query] and the last [log] are called. *)
Definition api_check (body : option string) (ts : string) (sv : DefenderApi.server)
    : list string * (DefenderApi.server * result exn DefenderApi.reply) :=
  match body with
  | None => ([], (sv, Ok (DefenderApi.BadRequest "missing 'domain' in JSON")))
  | Some domain =>
      let domain := PyStr.strip domain in
      let '(logged, classified) := classify_domain (DefenderApi.globals sv) domain in
      match classified with
      | Raise e => (logged, (sv, Raise e))
      | Ok (verdict, confidence, source) =>
          let record := DefenderApi.Query domain verdict (round4 confidence) source ts in
          let appended := DefenderApi.recent_queries sv ++ [record] in
          let recent :=
            if (DefenderApi.MAX_RECENT <? length appended)%nat
            then drop 1 appended else appended in
          let '(unsaved, saved) := persist_query record (DefenderApi.queries_file sv) in
          match saved with
          | Raise e =>
              (logged ++ unsaved,
               (DefenderApi.Server (DefenderApi.globals sv) recent
                  (DefenderApi.queries_file sv) (DefenderApi.blocked_file sv),
                Raise e))
          | Ok saved =>
              let '(checked, printed) :=
                log ("CHECK: " +:+ domain +:+ " => " +:+ verdict +:+ " (conf="
                       +:+ fixed3 confidence +:+ ") src=" +:+ source) in
              (logged ++ unsaved ++ checked,
               (DefenderApi.Server (DefenderApi.globals sv) recent saved
                  (DefenderApi.blocked_file sv),
                _ ← printed; Ok (DefenderApi.Verdict verdict (round4 confidence) source)))
          end
      end
  end.

End Stdout.

End Printing.

(** ** The victim asking the defender

    The victim posts [{"domain": domain}] to [http://defender_v2:5000/check],
    the route of [api_check] on the port the defender listens on. *)

Module Lab.


Section Round.

(** The text of a JSON document, and the parameters of [api_check] and of
    [handle_domain]. *)
Variable dumps : Victim.json -> string.
Variable round4 : Q -> Q.
Variable fixed3 : Q -> string.
Variable str_of_json : Victim.json -> string.
Variable repr : string -> string.



(** The same with a standard output of the defender that can fail.  When
    the handler raises, Flask answers with status 500 and a page that is
    no JSON, [error_page]; the entry of the check can be in the history all
    the same. *)
Variable print : string -> result exn unit.
Variable error_page : string.




End Round.

End Lab.

(** ** Notions of the specification *)

Module Spec.

(** The normal form of a domain, [d.strip().lower()]. *)
Definition normalize (d : string) : string := PyStr.lower (PyStr.strip d).

(** The prediction of the class of [X] and its mapping to a verdict: the
    part of the [try] block of [classify_domain] outside the inner [try]. *)
Definition predicted_verdict (clf : Defender.classifier) (X : Defender.features)
    : result exn string :=
  preds ← Defender.predict clf X;
  pred ← Defender.item preds 0;
  Defender.verdict_of pred.

(** The defender cannot be asked: the request fails (no connection, time
    out), the reply has an error status, or its body is not JSON. *)
Inductive defender_unavailable : result exn Victim.http_response -> Prop :=
| request_failed (m : string) :
    defender_unavailable (Raise (RequestException m))
| error_status (r : Victim.http_response) (m : string) :
    Victim.raise_for_status r = Raise (RequestException m) ->
    defender_unavailable (Ok r)
| body_not_json (r : Victim.http_response) (e : exn) :
    Victim.raise_for_status r = Ok tt ->
    Victim.response_json r = Raise e ->
    (exists m, e = ValueError m \/ e = JSONDecodeError m) ->
    defender_unavailable (Ok r).

(** The verdict of the classifier as it reaches the victim: the value
    under ["verdict"] of a reply with a good status whose body is a JSON
    object. *)
Inductive verdict_received (post : result exn Victim.http_response) (v : Victim.json)
    : Prop :=
| verdict_in_reply (r : Victim.http_response) (items : list (string * Victim.json)) :
    post = Ok r ->
    Victim.raise_for_status r = Ok tt ->
    Victim.response_json r = Ok (Victim.JObj items) ->
    Victim.assoc "verdict" items = Some v ->
    verdict_received post v.

(** The label of a domain: the part before the last ['.'], the whole
    string when it has none. *)
Definition label_of (domain : string) : string :=
  match PyStr.rsplit1 "." domain with
  | Some (name, _) => name
  | None => domain
  end.

(** The four answers of the match engine, as the log tells them apart. *)
Inductive outcome : Type := Greeted | Accepted | Dropped | Ignored.

Definition logged_as (line : string) : option outcome :=
  if PyStr.startswith "Allowed domain request " line then Some Greeted
  else if PyStr.startswith "C2 ACCEPT: " line then Some Accepted
  else if PyStr.startswith "DROPPED (not active): " line then Some Dropped
  else if PyStr.startswith "IGNORED: " line then Some Ignored
  else None.

(** What a response shows on the wire: its body and its status. *)
Definition wire (r : Attacker.response) : string * Z :=
  (Attacker.body r, Attacker.status r).

(** The decision of the match engine on a domain and its label, in the
    order of the specification. *)
Definition match_engine (domain label : string) (labels : list string)
    (active : gset string) : (string * Z) * option outcome :=
  if decide (domain ∈ Attacker.ALLOWED_DOMAINS) then
    (("hi from " +:+ domain, 200), Some Greeted)
  else if decide (label ∈ labels /\ label ∈ active) then
    (("C2 server connected", 200), Some Accepted)
  else if decide (label ∈ labels) then
    (("", 404), Some Dropped)
  else
    (("", 404), Some Ignored).

(** The share of the character [c] among the characters of [label]. *)
Definition frequency (c : ascii) (label : string) : R :=
  (IZR (PyStr.count c label) / IZR (PyStr.len label))%R.

(** The Shannon entropy of a label, in bits: minus the sum of
    [p(c) * log2 (p(c))] over its distinct characters.  The sum is empty,
    and the entropy 0, for the empty label. *)
Definition entropy (label : string) : R :=
  (- fold_right Rplus 0
       (map (fun c => frequency c label * Defender.log2 (frequency c label))
            (PyStr.distinct label)))%R.

(** A consonant is a letter that is not a vowel. *)
Definition isconsonant (c : ascii) : bool := PyStr.isalpha c && negb (PyStr.isvowel c).

(** The eight features of a label. *)
Definition features_of (label : string) : Defender.features :=
  Defender.Features
    (PyStr.len label)
    (PyStr.count_if PyStr.isdigit label)
    (PyStr.count_if PyStr.isalpha label)
    (Z.of_nat (length (PyStr.distinct label)))
    (PyStr.count_if PyStr.isvowel label)
    (PyStr.count_if isconsonant label)
    (if String.eqb label "" then 0%R
     else (IZR (PyStr.count_if PyStr.isdigit label) / IZR (PyStr.len label))%R)
    (entropy label).

(** A character of a generated label: a lower-case letter or a digit from
    2 to 7, the base-32 alphabet in lower case. *)
Definition label_char (c : ascii) : bool := PyStr.islower c || PyStr.in_range 50 55 c.

(** A label: a non-empty alphanumeric string that begins with a letter. *)
Definition is_label (l : string) : bool :=
  match l with
  | EmptyString => false
  | String c _ => PyStr.isalpha c && PyStr.forall_chars PyStr.isalnum l
  end.

(** Collecting labels in the order they come, skipping those already
    collected. *)
Definition collect (acc : list string) (label : string) : list string :=
  if decide (label ∈ acc) then acc else acc ++ [label].

Definition first_seen (labels : list string) : list string :=
  fold_left collect labels [].

(** The labels of the [n] indices from [k] on, and of the first [n]
    indices. *)
Definition labels_from (seed window : string) (k n : nat) : list string :=
  map (fun i => Attacker.generate_domain_label seed window (Z.of_nat i)
                  Attacker.LABEL_LENGTH)
      (seq k n).

Definition labels_upto (seed window : string) (n : nat) : list string :=
  labels_from seed window 0 n.

(** The domains of the victim: the label at position [i] with the suffix
    at position [i] modulo the number of suffixes. *)
Definition with_suffixes (labels : list string) : list string :=
  imap (fun i label =>
          label +:+ nth (i mod length Victim.TLD_LIST)%nat Victim.TLD_LIST "")
       labels.

(** The invariant of the published state of the attacker. *)
Definition active_within (st : Attacker.state) : Prop :=
  (forall l, l ∈ Attacker.current_active st -> l ∈ Attacker.current_labels st) /\
  size (Attacker.current_active st)
  = Nat.min Attacker.ACTIVE_PER_SET (length (Attacker.current_labels st)).

(** The entries a file of the queries can be read to hold: those of a
    JSON list, none when the file is absent or holds no JSON.  A file with
    a JSON document that is no list cannot be added to. *)
Definition stored (f : DefenderApi.document) : list Victim.json :=
  match f with
  | Some (Ok (Victim.JArr items)) => items
  | _ => []
  end.

Definition no_list (f : DefenderApi.document) : Prop :=
  exists v, f = Some (Ok v) /\ forall items, v <> Victim.JArr items.

(** The domains sent to the defender and those a connection was attempted
    to, in order. *)
Definition posted (events : list Victim.event) : list string :=
  omap (fun e => match e with Victim.PostToDefender d => Some d | _ => None end) events.

Definition connected (events : list Victim.event) : list string :=
  omap (fun e => match e with Victim.ConnectToAttacker d => Some d | _ => None end) events.

(** The number of symbols of a SHA-256 digest in base 32, and the length of
    the slice [s[:n]] of a string of that many characters. *)
Definition digest_symbols : nat := 52.

Definition sliced_length (n : Z) : nat :=
  if 0 <=? n then Nat.min (Z.to_nat n) digest_symbols
  else Z.to_nat (Z.of_nat digest_symbols + n).

End Spec.

(** ** Sample inputs *)

Module Examples.

(** A model that predicts the class [p] for every domain, with
    probability one. *)
Definition always (p : Defender.prediction) : Defender.classifier :=
  Defender.Classifier (fun _ => Ok [p]) (fun _ => Ok [[1%Q]]) [p].

(** A model trained on another number of columns: every prediction
    raises. *)
Definition mismatched : Defender.classifier :=
  Defender.Classifier
    (fun _ => Raise (ValueError "X has 8 features, but the tree is expecting 9"))
    (fun _ => Raise (ValueError "X has 8 features, but the tree is expecting 9"))
    [Defender.PInt 0; Defender.PInt 1].

Definition blocking_evil (m : option (Defender.classifier * list string))
    : Defender.state :=
  Defender.State {[ "evil-dga123.net" ]} m.

(** A defender that answers [{"verdict": v}] with status 200. *)
Definition answers (v : string) : result exn Victim.http_response :=
  Ok (Victim.HttpResponse (Ok tt) (Ok (Victim.JObj [("verdict", Victim.JStr v)])) 200 "").

(** An attacker that answers a connection. *)
Definition connected : result exn Victim.http_response :=
  Ok (Victim.HttpResponse (Ok tt) (Raise (JSONDecodeError "Expecting value")) 200
        "C2 server connected").

(** A standard output whose encoding holds the code points below 128
    only, as with [PYTHONIOENCODING=ascii]. *)
Definition ascii_stdout (line : string) : result exn unit :=
  if PyStr.isascii line then Ok tt
  else Raise (ValueError "'ascii' codec can't encode character: ordinal not in range(128)").

(** A standard output that takes every line. *)
Definition stdout (line : string) : result exn unit := Ok tt.

(** A domain with the letter e acute, the code point 233. *)
Definition accented : string := "caf" +:+ String "233"%char ".com".

(** A request that meets no server. *)
Definition unreachable : result exn Victim.http_response :=
  Raise (RequestException "Connection refused").

(** A plain rendering of the logged values. *)
Definition quoted (s : string) : string := "'" +:+ s +:+ "'".

Definition show (v : Victim.json) : string :=
  match v with
  | Victim.JStr s => s
  | _ => "<json>"
  end.

(** The raw draws of a random source, and the state the attacker publishes
    with them in the window of 2024-01-01 00:00. *)
Definition draws (i : nat) : nat := (7 * i)%nat.

Definition published : Attacker.state :=
  Attacker.State
    ["mbhmeca4lfmu"; "s4x7fvuebjla"; "gbijjx7o2foq"; "hfqhbo424whi"; "hiauvnzn5iky";
     "fnjp63sfct3u"; "zla6kojh67c7"; "hcyqm3ccdb3g"; "ogdk27esnclg"; "ahrrnwkmaleq"]
    {[ "mbhmeca4lfmu"; "ahrrnwkmaleq"; "zla6kojh67c7"; "hcyqm3ccdb3g"; "hiauvnzn5iky" ]}.

(** The domains of the victim in the same window. *)
Definition victim_domains : list string :=
  ["mbhmeca4lfmu.com"; "s4x7fvuebjla.net"; "gbijjx7o2foq.xyz"; "hfqhbo424whi.top";
   "hiauvnzn5iky.site"; "fnjp63sfct3u.online"; "zla6kojh67c7.club"; "hcyqm3ccdb3g.tk";
   "ogdk27esnclg.pw"; "ahrrnwkmaleq.cc"].

End Examples.

(** * Properties *)

(** A decidable proposition on closed terms, settled by evaluation. *)
Ltac decide_by_computation :=
  match goal with
  | |- ¬ ?P => apply (bool_decide_eq_false_1 P)
  | |- ?P => apply (bool_decide_eq_true_1 P)
  end; vm_compute; reflexivity.

(** ** Test vectors of the library functions *)

Example sha256_of_empty :
  Sha256.hexdigest (PyStr.encode "")
  = "e3b0c44298fc1c149afbf4c8996fb92427ae41e4649b934ca495991b7852b855".
Proof. vm_compute. reflexivity. Qed.

Example sha256_of_abc :
  Sha256.hexdigest (PyStr.encode "abc")
  = "ba7816bf8f01cfea414140de5dae2223b00361a396177a9cb410ff61f20015ad".
Proof. vm_compute. reflexivity. Qed.

(** A message of 56 bytes, padded to two blocks. *)
Example sha256_of_two_blocks :
  Sha256.hexdigest (List.repeat "a"%byte 56)
  = "b35439a4ac6f0948b6d6f9e3c6af0f5f590ce20f1bde7090ef7970686ec6738a".
Proof. vm_compute. reflexivity. Qed.

Example b32encode_of_foobar :
  map (fun s => PyStr.decode (Base32.b32encode (PyStr.encode s)))
      [""; "f"; "fo"; "foo"; "foob"; "fooba"; "foobar"]
  = [""; "MY======"; "MZXQ===="; "MZXW6==="; "MZXW6YQ="; "MZXW6YTB"; "MZXW6YTBOI======"].
Proof. vm_compute. reflexivity. Qed.

Example str_of_int_samples :
  map PyStr.str_of_int [0; 7; -5; 1234567890] = ["0"; "7"; "-5"; "1234567890"].
Proof. vm_compute. reflexivity. Qed.

Example strip_samples :
  map PyStr.strip ["  a b   "; "   "; "abc"] = ["a b"; ""; "abc"].
Proof. vm_compute. reflexivity. Qed.

Example rsplit1_samples :
  map (PyStr.rsplit1 ".") ["a.b.c"; "."; "a."; "abc"]
  = [Some ("a.b", "c"); Some ("", ""); Some ("a", ""); None].
Proof. vm_compute. reflexivity. Qed.

(** ** Strings *)

Section StringFacts.

Import PyStr.

Lemma isspace_lower_char (c : ascii) : isspace (lower_char c) = isspace c.
Proof. destruct c as [[] [] [] [] [] [] [] []]; reflexivity. Qed.

Lemma lower_char_idem (c : ascii) : lower_char (lower_char c) = lower_char c.
Proof. destruct c as [[] [] [] [] [] [] [] []]; reflexivity. Qed.

Lemma lower_idem (s : string) : lower (lower s) = lower s.
Proof.
  induction s as [|c s IH]; simpl; [reflexivity|].
  now rewrite lower_char_idem, IH.
Qed.

Lemma lstrip_lower (s : string) : lstrip (lower s) = lower (lstrip s).
Proof.
  induction s as [|c s IH]; simpl; [reflexivity|].
  rewrite isspace_lower_char. destruct (isspace c); [exact IH | reflexivity].
Qed.

Lemma rstrip_lower (s : string) : rstrip (lower s) = lower (rstrip s).
Proof.
  induction s as [|c s IH]; simpl; [reflexivity|].
  rewrite IH, isspace_lower_char.
  destruct (rstrip s); simpl; [destruct (isspace c)|]; reflexivity.
Qed.

Lemma strip_lower (s : string) : strip (lower s) = lower (strip s).
Proof. unfold strip. now rewrite lstrip_lower, rstrip_lower. Qed.

Lemma no_lead_lstrip (s : string) : no_lead (lstrip s) = true.
Proof.
  induction s as [|c s IH]; simpl; [reflexivity|].
  destruct (isspace c) eqn:E; [exact IH | simpl; now rewrite E].
Qed.

Lemma lstrip_no_lead (s : string) : no_lead s = true -> lstrip s = s.
Proof.
  destruct s as [|c s]; simpl; [reflexivity|].
  now destruct (isspace c).
Qed.

Lemma no_lead_rstrip (s : string) : no_lead s = true -> no_lead (rstrip s) = true.
Proof.
  destruct s as [|c s]; simpl; [reflexivity|]. intros H.
  destruct (rstrip s); [|exact H].
  destruct (isspace c) eqn:E; [discriminate H | simpl; now rewrite E].
Qed.

Lemma rstrip_idem (s : string) : rstrip (rstrip s) = rstrip s.
Proof.
  induction s as [|c s IH]; simpl; [reflexivity|].
  destruct (rstrip s) as [|d r] eqn:E.
  - destruct (isspace c) eqn:Ec; simpl; [reflexivity | now rewrite Ec].
  - change (rstrip (String c (String d r)))
      with (match rstrip (String d r) with
            | EmptyString => if isspace c then EmptyString else String c EmptyString
            | r' => String c r'
            end).
    now rewrite IH.
Qed.

Lemma strip_idem (s : string) : strip (strip s) = strip s.
Proof.
  unfold strip.
  rewrite (lstrip_no_lead (rstrip (lstrip s))).
  - apply rstrip_idem.
  - apply no_lead_rstrip, no_lead_lstrip.
Qed.

(** [d.strip().lower()] is a normal form. *)
Lemma normalize_idem (s : string) :
  lower (strip (lower (strip s))) = lower (strip s).
Proof. now rewrite strip_lower, strip_idem, lower_idem. Qed.

End StringFacts.

(** ** The classifier *)

Section Classifier.

Import Defender.

Lemma classify_domain_blocked (st : state) (domain : string) :
  Spec.normalize domain ∈ manual_block st ->
  classify_domain st domain = ([], Ok ("DGA", 1%Q, "manual_block")).
Proof.
  intros H. unfold classify_domain. fold (Spec.normalize domain).
  now rewrite decide_True.
Qed.

Lemma classify_domain_unblocked (st : state) (domain : string) :
  Spec.normalize domain ∉ manual_block st ->
  classify_domain st domain =
    match model st with
    | None => ([], Ok ("NOT_DGA", 0%Q, "fallback_no_model"))
    | Some (clf, _) =>
        let X := extract_features_from_domain (Spec.normalize domain) in
        match
          (preds ← predict clf X;
           pred ← item preds 0;
           verdict ← verdict_of pred;
           confidence ← try_except (confidence_of clf X pred) (fun _ => Ok 0%Q);
           Ok (verdict, confidence, "model"))
        with
        | Ok r => ([], Ok r)
        | Raise e =>
            (["Model prediction error for domain " +:+ Spec.normalize domain
                +:+ ": " +:+ exn_str e],
             Ok ("UNKNOWN", 0%Q, "error"))
        end
    end.
Proof.
  intros H. unfold classify_domain. fold (Spec.normalize domain).
  rewrite decide_False by exact H.
  destruct (model st) as [[clf cols]|]; reflexivity.
Qed.

(** C4.  A domain whose normal form is in the manual-block set is
    classified as [("DGA", 1.0, "manual_block")], whatever the model and
    whatever the features of the domain; nothing is logged. *)
Theorem manual_block_has_precedence (st : state) (domain : string) :
  Spec.normalize domain ∈ manual_block st ->
  classify_domain st domain = ([], Ok ("DGA", 1%Q, "manual_block")).
Proof.
  intros Hblocked. unfold classify_domain.
  destruct (decide (PyStr.lower (PyStr.strip domain) ∈ manual_block st)) as [_|Hno].
  - reflexivity.
  - contradiction.
Qed.

(** C5.  Without a trained model, a domain whose normal form is not in the
    manual-block set is classified as
    [("NOT_DGA", 0.0, "fallback_no_model")]. *)
Theorem no_model_fails_open (st : state) (domain : string) :
  model st = None ->
  Spec.normalize domain ∉ manual_block st ->
  classify_domain st domain = ([], Ok ("NOT_DGA", 0%Q, "fallback_no_model")).
Proof.
  intros Hm Hb. rewrite classify_domain_unblocked by exact Hb. now rewrite Hm.
Qed.

(** [classify_domain] with a standard output that takes every line is the
    function of [Defender]. *)
Lemma classify_domain_printed (print : string -> result exn unit)
    (st : state) (domain : string) :
  (forall line, print line = Ok tt) ->
  Printing.classify_domain print st domain = classify_domain st domain.
Proof.
  intros Hprint. unfold Printing.classify_domain, classify_domain, Printing.log.
  destruct (decide _); [reflexivity|].
  destruct (model st) as [[clf cols]|]; [|reflexivity].
  cbv zeta. destruct (_ ← predict clf _; _) as [r|e]; [reflexivity|].
  now rewrite Hprint.
Qed.

(** When the prediction of the model raises, [classify_domain] logs the
    error and answers the error triple, unless the [print] of [log]
    raises: then it has logged nothing and the exception of [print] leaves
    [classify_domain]. *)
Lemma classify_domain_prediction_error (print : string -> result exn unit)
    (st : state) (domain : string) (clf : classifier) (cols : list string) (e : exn) :
  model st = Some (clf, cols) ->
  Spec.normalize domain ∉ manual_block st ->
  Spec.predicted_verdict clf (extract_features_from_domain (Spec.normalize domain))
  = Raise e ->
  let line := "Model prediction error for domain " +:+ Spec.normalize domain
                +:+ ": " +:+ exn_str e in
  Printing.classify_domain print st domain
  = match print line with
    | Ok _ => ([line], Ok ("UNKNOWN", 0%Q, "error"))
    | Raise e' => ([], Raise e')
    end.
Proof.
  intros Hmodel Hfree Hraise. cbv zeta.
  unfold Printing.classify_domain, Printing.log. fold (Spec.normalize domain).
  rewrite decide_False by exact Hfree. rewrite Hmodel. cbv zeta.
  unfold Spec.predicted_verdict in Hraise.
  destruct (predict clf _) as [preds|e1]; cbn in Hraise |- *.
  - destruct (item preds 0) as [pred|e2]; cbn in Hraise |- *.
    + destruct (verdict_of pred) as [v|e3]; cbn in Hraise |- *; [discriminate Hraise|].
      injection Hraise as ->. now destruct (print _).
    + injection Hraise as ->. now destruct (print _).
  - injection Hraise as ->. now destruct (print _).
Qed.

(** An exception leaves [classify_domain] only this way: the domain is not
    blocked, the prediction of a loaded model raises, and so does the
    [print] of the line that reports it. *)
Lemma classify_domain_raises (print : string -> result exn unit)
    (st : state) (domain : string) (e' : exn) :
  (Printing.classify_domain print st domain).2 = Raise e' ->
  (Spec.normalize domain ∉ manual_block st) /\
  exists clf cols e,
    model st = Some (clf, cols) /\
    Spec.predicted_verdict clf (extract_features_from_domain (Spec.normalize domain))
    = Raise e /\
    print ("Model prediction error for domain " +:+ Spec.normalize domain
             +:+ ": " +:+ exn_str e) = Raise e'.
Proof.
  unfold Printing.classify_domain, Printing.log. fold (Spec.normalize domain).
  destruct (decide _) as [|Hfree]; [discriminate|].
  destruct (model st) as [[clf cols]|]; [|discriminate].
  cbv zeta. unfold Spec.predicted_verdict. intros Hrun.
  split; [exact Hfree|]. exists clf, cols.
  destruct (predict clf _) as [preds|e1]; cbn in Hrun |- *.
  - destruct (item preds 0) as [pred|e2]; cbn in Hrun |- *.
    + destruct (verdict_of pred) as [v|e3]; cbn in Hrun |- *.
      * destruct (confidence_of clf _ pred); discriminate Hrun.
      * exists e3. split; [reflexivity|]. split; [reflexivity|].
        destruct (print _); [discriminate Hrun | now injection Hrun as ->].
    + exists e2. split; [reflexivity|]. split; [reflexivity|].
      destruct (print _); [discriminate Hrun | now injection Hrun as ->].
  - exists e1. split; [reflexivity|]. split; [reflexivity|].
    destruct (print _); [discriminate Hrun | now injection Hrun as ->].
Qed.

(** C6.  [classify_domain] can propagate an exception.  The domain
    [Examples.accented], a model whose prediction raises and a standard
    output of encoding ASCII: the handler of the prediction error calls
    [log], whose [print] raises the [UnicodeEncodeError] (a [ValueError])
    outside any [try] block; nothing is logged and no triple is returned.
    On a standard output that takes the line, the same call logs the error
    and returns [("UNKNOWN", 0.0, "error")]. *)
Theorem classify_domain_propagates_print_error :
  let st := State ∅ (Some (Examples.mismatched, [])) in
  Printing.classify_domain Examples.ascii_stdout st Examples.accented
  = ([], Raise (ValueError
                  "'ascii' codec can't encode character: ordinal not in range(128)")) /\
  (Printing.classify_domain Examples.stdout st Examples.accented).2
  = Ok ("UNKNOWN", 0%Q, "error").
Proof.
  cbv zeta. split.
  - rewrite (classify_domain_prediction_error Examples.ascii_stdout _ _
               Examples.mismatched []
               (ValueError "X has 8 features, but the tree is expecting 9"));
      [reflexivity | reflexivity | decide_by_computation | reflexivity].
  - rewrite (classify_domain_prediction_error Examples.stdout _ _
               Examples.mismatched []
               (ValueError "X has 8 features, but the tree is expecting 9"));
      [reflexivity | reflexivity | decide_by_computation | reflexivity].
Qed.

(** C10.  [classify_domain] gives the same result on a domain and on its
    normal form [d.strip().lower()], and [api_block] stores the normal
    form: a domain is blocked by blocking it under any spelling with the
    same normal form. *)
Theorem classify_domain_normalized :
  (forall st d, classify_domain st d = classify_domain st (PyStr.lower (PyStr.strip d))) /\
  (forall st b d,
      classify_domain (api_block b st).1 d
      = classify_domain (api_block (PyStr.lower (PyStr.strip b)) st).1
                        (PyStr.lower (PyStr.strip d))) /\
  (forall st d,
      classify_domain (api_block d st).1 d = ([], Ok ("DGA", 1%Q, "manual_block"))).
Proof.
  assert (H1 : forall st d,
             classify_domain st d = classify_domain st (PyStr.lower (PyStr.strip d))).
  { intros st d. unfold classify_domain. now rewrite normalize_idem. }
  split; [exact H1|]. split.
  - intros st b d. rewrite (H1 _ d). unfold api_block. now rewrite normalize_idem.
  - intros st d. apply classify_domain_blocked. unfold api_block, Spec.normalize. simpl.
    set_solver.
Qed.

Lemma manual_block_has_precedence_witness :
  classify_domain
    (Examples.blocking_evil (Some (Examples.always (PInt 0), [])))
    " Evil-DGA123.net "
  = ([], Ok ("DGA", 1%Q, "manual_block")).
Proof.
  apply manual_block_has_precedence.
  decide_by_computation.
Defined.

Lemma no_model_fails_open_witness :
  classify_domain (Examples.blocking_evil None) "evil-dga124.net"
  = ([], Ok ("NOT_DGA", 0%Q, "fallback_no_model")).
Proof.
  apply no_model_fails_open.
  - reflexivity.
  - decide_by_computation.
Defined.

End Classifier.

(** ** The decision loop of the victim *)

Section DecisionLoop.

Import Victim.

Variable str_of_json : json -> string.
Variable repr : string -> string.

Lemma is_str_true (v : json) (s : string) : is_str v s = true <-> v = JStr s.
Proof.
  destruct v; simpl; try (split; [discriminate | intros [=]]).
  rewrite String.eqb_eq. split; [now intros -> | now intros [= ->]].
Qed.

Lemma send_to_defender_events (d domain : string) (post : result exn http_response) :
  ConnectToAttacker d ∉ (send_to_defender domain post).1.
Proof.
  unfold send_to_defender.
  destruct (_ ← post; _) as [a|[]]; simpl; set_solver.
Qed.

Lemma simulate_connection_events (domain : string) (conn : result exn http_response) :
  ConnectToAttacker domain ∈ (simulate_connection repr domain conn).1.
Proof. destruct conn as [r|[]]; simpl; set_solver. Qed.

(** The events of [handle_domain], by the answer of the defender. *)
Lemma handle_domain_connects (domain : string) (post conn : result exn http_response) :
  ConnectToAttacker domain ∈ (handle_domain str_of_json repr domain post conn).1 <->
  exists a, (send_to_defender domain post).2 = Ok a /\ is_str (verdict a) "NOT_DGA" = true.
Proof.
  unfold handle_domain.
  pose proof (send_to_defender_events domain domain post) as Hs.
  destruct (send_to_defender domain post) as [sent [a|e]]; simpl in *.
  - destruct (is_str (verdict a) "NOT_DGA") eqn:E.
    + pose proof (simulate_connection_events domain conn) as Hc.
      destruct (simulate_connection repr domain conn) as [made r]; simpl in *.
      split; [intros _; now exists a | intros _; set_solver].
    + split.
      * destruct (is_str (verdict a) "DGA"); simpl; set_solver.
      * intros (a' & [= <-] & H). congruence.
  - split; [set_solver | intros (a & [=] & _)].
Qed.

Lemma unavailable_answer (domain : string) (post : result exn http_response) :
  Spec.defender_unavailable post ->
  exists d, (send_to_defender domain post).2 = Ok (Answer (JStr "UNKNOWN") (inr d)).
Proof.
  intros H. unfold send_to_defender. destruct H as [m|r m H|r e H1 H2 (m & [->| ->])]; simpl.
  - eexists; reflexivity.
  - rewrite H. simpl. eexists; reflexivity.
  - rewrite H1, H2. simpl. eexists; reflexivity.
  - rewrite H1, H2. simpl. eexists; reflexivity.
Qed.

(** Whether a reply carries the verdict ["NOT_DGA"] can be told. *)
Lemma classic_received (post : result exn http_response) :
  Spec.verdict_received post (JStr "NOT_DGA") \/
  ~ Spec.verdict_received post (JStr "NOT_DGA").
Proof.
  destruct post as [r|e]; [|right; intros [? ? [=]]].
  destruct (raise_for_status r) as [[]|e] eqn:Hstatus;
    [|right; intros [? ? [= <-] H]; congruence].
  destruct (response_json r) as [data|e] eqn:Hjson;
    [|right; intros [? ? [= <-] _ H]; congruence].
  destruct data as [| | | |items'|items];
    try (right; intros [? ? [= <-] _ H]; congruence).
  destruct (assoc "verdict" items) as [v|] eqn:Hv;
    [|right; intros [? ? [= <-] _ H H']; congruence].
  destruct (is_str v "NOT_DGA") eqn:E.
  - apply is_str_true in E. subst v. left. now apply (Spec.verdict_in_reply _ _ r items).
  - right. intros [? ? [= <-] _ H H'].
    assert (v = JStr "NOT_DGA") by congruence. subst v.
    cbn in E. discriminate E.
Qed.

(** A reply carries one verdict at most. *)
Lemma verdict_received_unique (post : result exn http_response) (v w : json) :
  Spec.verdict_received post v -> Spec.verdict_received post w -> v = w.
Proof.
  intros [r items -> _ Hjson Hv] [r' items' [= <-] _ Hjson' Hw].
  rewrite Hjson in Hjson'. injection Hjson' as <-. congruence.
Qed.

(** The answer of [send_to_defender] to a reply that carries a verdict. *)
Lemma received_answer (domain : string) (post : result exn http_response) (v : json) :
  Spec.verdict_received post v ->
  exists data,
    send_to_defender domain post = ([PostToDefender domain], Ok (Answer v (inl data))).
Proof.
  intros [r items -> Hstatus Hjson Hv]. unfold send_to_defender.
  cbn [mbind result_bind]. rewrite Hstatus, Hjson. cbn [mbind result_bind get].
  rewrite Hv. now eexists.
Qed.

(** The verdict [send_to_defender] answers is ["NOT_DGA"] only when the
    reply carries it. *)
Lemma answer_not_dga (domain : string) (post : result exn http_response)
    (a : defender_answer) :
  (send_to_defender domain post).2 = Ok a ->
  verdict a = JStr "NOT_DGA" ->
  Spec.verdict_received post (JStr "NOT_DGA").
Proof.
  unfold send_to_defender. intros Hrun Hv.
  destruct post as [r|e]; cbn [mbind result_bind] in Hrun.
  - destruct (raise_for_status r) as [[]|e] eqn:Hstatus; cbn [mbind result_bind] in Hrun.
    + destruct (response_json r) as [data|e] eqn:Hjson; cbn [mbind result_bind] in Hrun.
      * destruct data; cbn [get mbind result_bind snd] in Hrun; try discriminate Hrun.
        injection Hrun as <-. cbn [verdict] in Hv.
        destruct (assoc "verdict" items) as [w|] eqn:Hw; cbn in Hv; [|discriminate Hv].
        subst w. now apply (Spec.verdict_in_reply _ _ r items).
      * destruct e; cbn [snd] in Hrun; try discriminate Hrun;
          injection Hrun as <-; discriminate Hv.
    + destruct e; cbn [snd] in Hrun; try discriminate Hrun;
        injection Hrun as <-; discriminate Hv.
  - destruct e; cbn [snd] in Hrun; try discriminate Hrun;
      injection Hrun as <-; discriminate Hv.
Qed.

(** What [handle_domain] does, by the verdict that reaches the victim. *)
Lemma handle_domain_by_verdict (domain : string) (post conn : result exn http_response) :
  let run := handle_domain str_of_json repr domain post conn in
  (Spec.verdict_received post (JStr "NOT_DGA") ->
   Spec.connected run.1 = [domain] /\
   run.2 = (simulate_connection repr domain conn).2 /\
   Log ("VERDICT NOT_DGA: attempting connection to " +:+ domain) ∈ run.1) /\
  (~ Spec.verdict_received post (JStr "NOT_DGA") -> Spec.connected run.1 = []) /\
  (forall v, Spec.verdict_received post v -> v <> JStr "NOT_DGA" ->
   run.2 = Ok tt /\
   (v = JStr "DGA" ->
    Log ("VERDICT DGA: blocking " +:+ domain +:+ " (no connection)") ∈ run.1) /\
   (v <> JStr "DGA" ->
    Log ("VERDICT UNKNOWN: default action = block " +:+ domain) ∈ run.1)).
Proof.
  cbv zeta. split; [|split].
  - intros Hv. destruct (received_answer domain post _ Hv) as [data Hrun].
    unfold handle_domain. rewrite Hrun. cbn [verdict is_str String.eqb Ascii.eqb Bool.eqb].
    unfold simulate_connection.
    destruct conn as [r|[]]; cbn [fst snd]; (split; [reflexivity|]);
      (split; [reflexivity|]); set_solver.
  - intros Hno. pose proof (answer_not_dga domain post) as Hanswer.
    unfold handle_domain. unfold send_to_defender in *. revert Hanswer.
    destruct (_ ← post; _) as [a|[]]; cbn [fst snd]; intros Hanswer; try reflexivity.
    destruct (is_str (verdict a) "NOT_DGA") eqn:E.
    + apply is_str_true in E. destruct (Hno (Hanswer a eq_refl E)).
    + destruct (is_str (verdict a) "DGA"); reflexivity.
  - intros v Hv Hne. destruct (received_answer domain post _ Hv) as [data Hrun].
    unfold handle_domain. rewrite Hrun. cbn [verdict].
    destruct (is_str v "NOT_DGA") eqn:E; [apply is_str_true in E; contradiction|].
    destruct (is_str v "DGA") eqn:E'; cbn [fst snd]; (split; [reflexivity|]).
    + split; [intros _; set_solver|]. apply is_str_true in E'. contradiction.
    + split; [|intros _; set_solver].
      intros ->. cbn in E'. discriminate E'.
Qed.

(** [handle_domain] when the defender is not available. *)
Lemma handle_domain_unavailable (domain : string) (post conn : result exn http_response) :
  Spec.defender_unavailable post ->
  let run := handle_domain str_of_json repr domain post conn in
  Spec.connected run.1 = [] /\ run.2 = Ok tt /\
  Log ("VERDICT UNKNOWN: default action = block " +:+ domain) ∈ run.1.
Proof.
  intros Hu. cbv zeta. destruct (unavailable_answer domain post Hu) as [d Hd].
  assert (Hnot : ~ Spec.verdict_received post (JStr "NOT_DGA")).
  { intros Hv. destruct (received_answer domain post _ Hv) as [data Hrun].
    rewrite Hrun in Hd. discriminate Hd. }
  split; [exact (proj1 (proj2 (handle_domain_by_verdict domain post conn)) Hnot)|].
  unfold handle_domain.
  destruct (send_to_defender domain post) as [sent res]. cbn [snd] in Hd. subst res.
  cbn [verdict is_str String.eqb Ascii.eqb Bool.eqb fst snd].
  split; [reflexivity | set_solver].
Qed.

(** A connection among the events is a connection attempted. *)
Lemma connected_events (d : string) (events : list event) :
  ConnectToAttacker d ∈ events <-> d ∈ Spec.connected events.
Proof.
  unfold Spec.connected. rewrite list_elem_of_omap. split.
  - intros H. exists (ConnectToAttacker d). now split.
  - intros ([] & H & [=]). now subst.
Qed.

(** C9.  [handle_domain] attempts a connection, to the domain it handles
    and to no other, exactly when the verdict in the reply of the defender
    is the string ["NOT_DGA"].  Any other verdict is no connection, and
    [handle_domain] returns: the verdict ["DGA"] is logged as blocking, the
    others as unknown.  When the defender cannot be reached, times out,
    answers an error status or a body that is not JSON, the verdict is
    ["UNKNOWN"], no connection is attempted and the domain is logged as
    blocked by default. *)
Theorem victim_connects_iff_not_dga (domain : string)
    (post conn : result exn http_response) :
  let run := handle_domain str_of_json repr domain post conn in
  (forall d, ConnectToAttacker d ∈ run.1 <->
             d = domain /\ Spec.verdict_received post (JStr "NOT_DGA")) /\
  (Spec.connected run.1 = [domain] <-> Spec.verdict_received post (JStr "NOT_DGA")) /\
  (forall v, Spec.verdict_received post v -> v <> JStr "NOT_DGA" ->
     Spec.connected run.1 = [] /\ run.2 = Ok tt /\
     (v = JStr "DGA" ->
      Log ("VERDICT DGA: blocking " +:+ domain +:+ " (no connection)") ∈ run.1) /\
     (v <> JStr "DGA" ->
      Log ("VERDICT UNKNOWN: default action = block " +:+ domain) ∈ run.1)) /\
  (Spec.defender_unavailable post ->
     (exists d, (send_to_defender domain post).2 = Ok (Answer (JStr "UNKNOWN") (inr d))) /\
     Spec.connected run.1 = [] /\ run.2 = Ok tt /\
     Log ("VERDICT UNKNOWN: default action = block " +:+ domain) ∈ run.1).
Proof.
  cbv zeta.
  destruct (handle_domain_by_verdict domain post conn) as (Hyes & Hno & Hother).
  cbv zeta in Hyes, Hno, Hother.
  assert (Hiff : Spec.connected (handle_domain str_of_json repr domain post conn).1 = [domain]
                 <-> Spec.verdict_received post (JStr "NOT_DGA")).
  { split; [|intros Hv; now apply Hyes].
    intros Hconn. destruct (classic_received post) as [Hv|Hv]; [exact Hv|].
    rewrite (Hno Hv) in Hconn. discriminate Hconn. }
  split; [|split; [exact Hiff|split]].
  - intros d. rewrite connected_events.
    destruct (classic_received post) as [Hv|Hv].
    + rewrite (proj1 (Hyes Hv)). rewrite list_elem_of_singleton. tauto.
    + rewrite (Hno Hv). rewrite elem_of_nil. tauto.
  - intros v Hv Hne.
    assert (Hnot : ~ Spec.verdict_received post (JStr "NOT_DGA")).
    { intros Hw. apply Hne. exact (verdict_received_unique post _ _ Hv Hw). }
    split; [exact (Hno Hnot) | exact (Hother v Hv Hne)].
  - intros Hu. split; [exact (unavailable_answer domain post Hu)|].
    exact (handle_domain_unavailable domain post conn Hu).
Qed.

End DecisionLoop.

Lemma victim_connects_iff_not_dga_witness :
  Spec.connected
    (Victim.handle_domain Examples.show Examples.quoted "mbhmeca4lfmu.com"
       (Examples.answers "NOT_DGA") Examples.connected).1
  = ["mbhmeca4lfmu.com"] /\
  Spec.connected
    (Victim.handle_domain Examples.show Examples.quoted "mbhmeca4lfmu.com"
       (Examples.answers "DGA") Examples.connected).1
  = [] /\
  Spec.connected
    (Victim.handle_domain Examples.show Examples.quoted "mbhmeca4lfmu.com"
       Examples.unreachable Examples.connected).1
  = [].
Proof.
  split; [|split].
  - apply (victim_connects_iff_not_dga Examples.show Examples.quoted "mbhmeca4lfmu.com"
             (Examples.answers "NOT_DGA") Examples.connected).
    now apply (Spec.verdict_in_reply _ _
                 (Victim.HttpResponse (Ok tt)
                    (Ok (Victim.JObj [("verdict", Victim.JStr "NOT_DGA")])) 200 "")
                 [("verdict", Victim.JStr "NOT_DGA")]).
  - apply (victim_connects_iff_not_dga Examples.show Examples.quoted "mbhmeca4lfmu.com"
             (Examples.answers "DGA") Examples.connected) with (v := Victim.JStr "DGA").
    + now apply (Spec.verdict_in_reply _ _
                   (Victim.HttpResponse (Ok tt)
                      (Ok (Victim.JObj [("verdict", Victim.JStr "DGA")])) 200 "")
                   [("verdict", Victim.JStr "DGA")]).
    + discriminate.
  - apply (victim_connects_iff_not_dga Examples.show Examples.quoted "mbhmeca4lfmu.com"
             Examples.unreachable Examples.connected).
    apply Spec.request_failed.
Defined.


(** ** The match engine of the attacker *)

Section MatchEngine.

Import Attacker.

Lemma rsplit1_absent (ch : ascii) (s : string) :
  PyStr.contains ch s = false -> PyStr.rsplit1 ch s = None.
Proof.
  induction s as [|c s IH]; simpl; [reflexivity|].
  destruct (Ascii.eqb c ch); [discriminate|].
  intros H. now rewrite (IH H).
Qed.

(** The label [domain_label_from_domain] extracts is that of the domain
    stripped of the white space around it and put in lower case. *)
Lemma domain_label_from_domain_spec (domain : string) :
  domain_label_from_domain domain = Spec.label_of (PyStr.lower (PyStr.strip domain)).
Proof.
  unfold domain_label_from_domain, Spec.label_of.
  destruct (PyStr.contains "." _) eqn:E; [reflexivity|].
  now rewrite (rsplit1_absent _ _ E).
Qed.

Lemma requested_domain_lower (host_header : option string) (path : string) :
  PyStr.lower (requested_domain host_header path) = requested_domain host_header path.
Proof.
  unfold requested_domain.
  destruct (String.eqb _ ""); apply lower_idem.
Qed.

(** C8, as amended.  On every request and every snapshot, [catch_all]
    answers in the order of the match engine: the greeting for a domain of
    the allow-list; else, for the label of the domain stripped of the white
    space around it, the C2 reply when the label is in the label set and
    active, an empty 404 logged as dropped when it is in the label set and
    not active, and the same empty 404 logged as ignored otherwise. *)
Theorem catch_all_decides (host_header : option string) (path src : string)
    (st : state) :
  let domain := requested_domain host_header path in
  let out := catch_all host_header path src st in
  (Spec.wire out.1, Spec.logged_as out.2)
  = Spec.match_engine domain (Spec.label_of (PyStr.strip domain))
                      (current_labels st) (current_active st).
Proof.
  cbv zeta. unfold catch_all, decide_request, Spec.match_engine.
  rewrite domain_label_from_domain_spec, <- strip_lower, requested_domain_lower.
  set (domain := requested_domain host_header path).
  set (label := Spec.label_of (PyStr.strip domain)).
  destruct (decide (domain ∈ ALLOWED_DOMAINS)); [reflexivity|].
  destruct (decide (label ∈ current_labels st)) as [Hl|Hl].
  - destruct (decide (label ∈ current_active st)) as [Ha|Ha].
    + rewrite decide_True by (split; assumption). reflexivity.
    + rewrite decide_False by (intros [_ ?]; contradiction). reflexivity.
  - rewrite decide_False by (intros [? _]; contradiction). reflexivity.
Qed.

(** C8, as stated, fails on a request without [Host] header for the path
    [" abc"] while ["abc"] is an active label: the handler strips the
    space and answers as the C2 server; by the label of the unstripped
    domain the request would be ignored. *)
Lemma catch_all_strips_the_domain :
  let st := State ["abc"] {[ "abc" ]} in
  let domain := requested_domain None " abc" in
  let out := catch_all None " abc" "10.0.0.7" st in
  domain = " abc" /\
  (Spec.wire out.1, Spec.logged_as out.2) = (("C2 server connected", 200), Some Spec.Accepted) /\
  Spec.match_engine domain (Spec.label_of domain) (current_labels st) (current_active st)
  = (("", 404), Some Spec.Ignored) /\
  (Spec.wire out.1, Spec.logged_as out.2)
  <> Spec.match_engine domain (Spec.label_of domain) (current_labels st) (current_active st).
Proof.
  cbv zeta. split; [reflexivity|].
  split; [vm_compute; reflexivity|].
  split; [vm_compute; reflexivity|].
  vm_compute. discriminate.
Qed.

End MatchEngine.

(** ** The feature extractor *)

Section FeatureExtractor.

Import Defender.

Lemma name_of_spec (domain : string) : name_of domain = Spec.label_of domain.
Proof.
  unfold name_of, Spec.label_of.
  destruct (PyStr.contains "." domain) eqn:E; [reflexivity|].
  now rewrite (rsplit1_absent _ _ E).
Qed.

Lemma isvowel_isalpha (c : ascii) : PyStr.isvowel c = true -> PyStr.isalpha c = true.
Proof. destruct c as [[] [] [] [] [] [] [] []]; simpl; intros [=]; reflexivity. Qed.

(** The letters that are not counted as vowels are the consonants. *)
Lemma consonants_spec (s : string) :
  PyStr.count_if PyStr.isalpha s - PyStr.count_if PyStr.isvowel s
  = PyStr.count_if Spec.isconsonant s.
Proof.
  induction s as [|c s IH]; simpl; [reflexivity|].
  unfold Spec.isconsonant at 1.
  pose proof (isvowel_isalpha c) as H.
  destruct (PyStr.isvowel c), (PyStr.isalpha c); simpl;
    first [lia | discriminate (H eq_refl)].
Qed.

Lemma len_zero (s : string) : (0 <? PyStr.len s) = negb (String.eqb s "").
Proof. destruct s; reflexivity. Qed.

Lemma sum_fold_right (xs : list R) : sum xs = fold_right Rplus 0%R xs.
Proof.
  unfold sum. apply fold_symmetric; intros; ring.
Qed.

(** [shannon_entropy] computes the entropy of the specification. *)
Lemma shannon_entropy_spec (s : string) : shannon_entropy s = Spec.entropy s.
Proof.
  unfold shannon_entropy, Spec.entropy.
  destruct s as [|c s].
  - simpl. ring.
  - change (String.eqb (String c s) "") with false. cbv iota.
    rewrite sum_fold_right, !map_map. reflexivity.
Qed.

Lemma extract_features_spec (domain : string) :
  extract_features_from_domain domain
  = Spec.features_of (Spec.label_of (PyStr.lower (PyStr.strip domain))).
Proof.
  unfold extract_features_from_domain, Spec.features_of.
  rewrite name_of_spec, consonants_spec, shannon_entropy_spec, len_zero.
  now destruct (String.eqb _ "").
Qed.

Lemma entropy_abc123 : Spec.entropy "abc123" = log2 6.
Proof.
  unfold Spec.entropy, Spec.frequency.
  replace (PyStr.distinct "abc123")
    with ["a"%char; "b"%char; "c"%char; "1"%char; "2"%char; "3"%char]
    by reflexivity.
  replace (PyStr.len "abc123") with 6 by reflexivity.
  cbn [map fold_right].
  repeat match goal with
         | |- context [PyStr.count ?c "abc123"] =>
             replace (PyStr.count c "abc123") with 1 by reflexivity
         end.
  unfold log2. replace (1 / 6)%R with (/ 6)%R by lra.
  rewrite ln_Rinv by lra.
  assert (ln 2 <> 0)%R by (pose proof ln_lt_2; lra).
  field. assumption.
Qed.

(** C7, as amended.  [extract_features_from_domain] strips the white space
    around the domain and puts it in lower case, takes as label the part
    before the last ['.'] (all of it without ['.']) and returns the eight
    features of the label: length, digits, letters, distinct characters,
    vowels, consonants, share of digits (0 for the empty label) and
    Shannon entropy (0 for the empty label).  On ["abc123.com"] they are
    6, 3, 3, 6, 1, 2, 1/2 and the entropy of ["abc123"], which is
    [log2 6]. *)
Theorem extract_features_of_stripped_domain :
  (forall domain,
      extract_features_from_domain domain
      = Spec.features_of (Spec.label_of (PyStr.lower (PyStr.strip domain)))) /\
  extract_features_from_domain "abc123.com"
  = Features 6 3 3 6 1 2 (1 / 2)%R (Spec.entropy "abc123") /\
  Spec.entropy "abc123" = log2 6 /\
  Spec.features_of "" = Features 0 0 0 0 0 0 0%R 0%R /\
  shannon_entropy "" = 0%R.
Proof.
  split; [exact extract_features_spec|].
  split; [|split; [exact entropy_abc123|split; [|reflexivity]]].
  - rewrite extract_features_spec.
    replace (Spec.label_of (PyStr.lower (PyStr.strip "abc123.com"))) with "abc123"
      by reflexivity.
    unfold Spec.features_of.
    replace (PyStr.len "abc123") with 6 by reflexivity.
    replace (PyStr.count_if PyStr.isdigit "abc123") with 3 by reflexivity.
    replace (PyStr.count_if PyStr.isalpha "abc123") with 3 by reflexivity.
    replace (PyStr.count_if PyStr.isvowel "abc123") with 1 by reflexivity.
    replace (PyStr.count_if Spec.isconsonant "abc123") with 2 by reflexivity.
    replace (Z.of_nat (length (PyStr.distinct "abc123"))) with 6 by reflexivity.
    change (String.eqb "abc123" "") with false. cbv iota.
    f_equal. lra.
  - unfold Spec.features_of, Spec.entropy. simpl. f_equal. ring.
Qed.

(** C7, as stated, fails on [" a.com"]: the function strips the space and
    measures the label ["a"], of length 1, where lowering the domain and
    cutting it at its last ['.'] leaves the label [" a"], of length 2. *)
Lemma extract_features_strips_the_domain :
  feat_length (extract_features_from_domain " a.com") = 1 /\
  feat_length (Spec.features_of (Spec.label_of (PyStr.lower " a.com"))) = 2 /\
  extract_features_from_domain " a.com"
  <> Spec.features_of (Spec.label_of (PyStr.lower " a.com")).
Proof.
  split; [reflexivity|]. split; [reflexivity|].
  intros H. apply (f_equal feat_length) in H. discriminate H.
Qed.

End FeatureExtractor.

(** ** The label generator *)

Section LabelGenerator.

Import PyStr.

Lemma digest_length (msg : list byte) : length (Sha256.digest msg) = 32%nat.
Proof. unfold Sha256.digest. generalize (fold_left Sha256.compress); intros. reflexivity. Qed.

Lemma symbol_label_char (x : Z) :
  Spec.label_char (lower_char (ascii_of_byte (Base32.symbol (Z.land x 31)))) = true.
Proof.
  change 31 with (Z.ones 5). rewrite Z.land_ones by lia.
  pose proof (Z.mod_pos_bound x (2 ^ 5) ltac:(lia)) as H.
  set (v := x mod 2 ^ 5) in *.
  rewrite <- (Z2Nat.id v) by lia.
  assert (Hn : (Z.to_nat v < 32)%nat) by lia.
  generalize dependent (Z.to_nat v). clear. intros n Hn.
  do 32 (destruct n as [|n]; [reflexivity|]). lia.
Qed.

Lemma label_char_facts (c : ascii) :
  Spec.label_char c = true ->
  isalnum c = true /\ Ascii.eqb c "=" = false /\ lower_char c = c /\
  (isdigit c = false -> isalpha c = true).
Proof.
  destruct c as [[] [] [] [] [] [] [] []]; simpl; intros [=]; repeat split;
    intros; first [reflexivity | discriminate].
Qed.

Lemma decode_app (a b : list byte) : decode (a ++ b) = decode a +:+ decode b.
Proof.
  unfold decode, string_of_list_byte.
  induction a as [|x a IH]; simpl; [reflexivity | now rewrite IH].
Qed.

Lemma lower_app (s t : string) : lower (s +:+ t) = lower s +:+ lower t.
Proof. induction s as [|c s IH]; simpl; [reflexivity|]. now rewrite IH. Qed.

Lemma remove_char_app (ch : ascii) (s t : string) :
  forall_chars (fun c => negb (Ascii.eqb c ch)) s = true ->
  remove_char ch (s +:+ t) = s +:+ remove_char ch t.
Proof.
  induction s as [|c s IH]; simpl; [reflexivity|].
  intros [Hc Hs]%andb_prop. destruct (Ascii.eqb c ch); [discriminate|]. now rewrite IH.
Qed.

Lemma filter_append (p : ascii -> bool) (s t : string) :
  forall_chars p s = true -> filter p (s +:+ t) = s +:+ filter p t.
Proof.
  induction s as [|c s IH]; simpl; [reflexivity|].
  intros [Hc Hs]%andb_prop. rewrite Hc. now rewrite IH.
Qed.

Lemma take_append (n : nat) (s t : string) :
  (n <= String.length s)%nat -> take n (s +:+ t) = take n s.
Proof.
  revert n. induction s as [|c s IH]; intros [|n] H; simpl in *; try reflexivity; try lia.
  now rewrite IH by lia.
Qed.

Lemma length_take_string (n : nat) (s : string) :
  (n <= String.length s)%nat -> String.length (take n s) = n.
Proof.
  revert n. induction s as [|c s IH]; intros [|n] H; simpl in *; try reflexivity; try lia.
  now rewrite IH by lia.
Qed.

Lemma forall_chars_take (p : ascii -> bool) (n : nat) (s : string) :
  forall_chars p s = true -> forall_chars p (take n s) = true.
Proof.
  revert n. induction s as [|c s IH]; intros [|n]; simpl; try reflexivity.
  intros [Hc Hs]%andb_prop. now rewrite Hc, IH.
Qed.

Lemma forall_chars_impl (p q : ascii -> bool) (s : string) :
  (forall c, p c = true -> q c = true) ->
  forall_chars p s = true -> forall_chars q s = true.
Proof.
  intros H. induction s as [|c s IH]; simpl; [reflexivity|].
  intros [Hc Hs]%andb_prop. now rewrite (H _ Hc), IH.
Qed.

(** The symbols of a full group of five bytes, decoded and lowered, are
    eight label characters. *)
Lemma quintet_label_chars (b0 b1 b2 b3 b4 : byte) :
  let s := lower (decode (Base32.quintet b0 b1 b2 b3 b4)) in
  String.length s = 8%nat /\ forall_chars Spec.label_char s = true.
Proof.
  cbv zeta. unfold Base32.quintet, decode, string_of_list_byte.
  cbn [List.map string_of_list_ascii lower String.length forall_chars].
  split; [reflexivity|].
  rewrite !symbol_label_char. reflexivity.
Qed.

Lemma length_append (s t : string) :
  String.length (s +:+ t) = (String.length s + String.length t)%nat.
Proof. induction s as [|c s IH]; simpl; [reflexivity | now rewrite IH]. Qed.

Lemma forall_chars_append (p : ascii -> bool) (s t : string) :
  forall_chars p s = true -> forall_chars p t = true ->
  forall_chars p (s +:+ t) = true.
Proof.
  intros Hs Ht. induction s as [|c s IH]; simpl in *; [exact Ht|].
  apply andb_prop in Hs as [Hc Hs]. now rewrite Hc, IH.
Qed.

(** The label before the replacement of a leading digit: the first twelve
    symbols of the digest in base 32, in lower case. *)
Lemma raw_label_shape (digest : list byte) :
  length digest = 32%nat ->
  let b32 := remove_char "=" (lower (decode (Base32.b32encode digest))) in
  let label := slice_to 12 (filter isalnum b32) in
  String.length label = 12%nat /\ forall_chars Spec.label_char label = true.
Proof.
  intros Hlen.
  do 10 (destruct digest as [|? digest]; [discriminate Hlen|]).
  change (Base32.b32encode (b :: b0 :: b1 :: b2 :: b3 :: b4 :: b5 :: b6 :: b7 :: b8 :: digest))
    with ((Base32.quintet b b0 b1 b2 b3 ++ Base32.quintet b4 b5 b6 b7 b8)
            ++ Base32.b32encode digest).
  rewrite !decode_app, !lower_app.
  destruct (quintet_label_chars b b0 b1 b2 b3) as [L1 C1].
  destruct (quintet_label_chars b4 b5 b6 b7 b8) as [L2 C2].
  set (s1 := lower (decode (Base32.quintet b b0 b1 b2 b3))) in *.
  set (s2 := lower (decode (Base32.quintet b4 b5 b6 b7 b8))) in *.
  set (t := lower (decode (Base32.b32encode digest))).
  assert (C : forall_chars Spec.label_char (s1 +:+ s2) = true)
    by now apply forall_chars_append.
  assert (L : String.length (s1 +:+ s2) = 16%nat) by now rewrite length_append, L1, L2.
  cbv zeta.
  rewrite remove_char_app
    by (revert C; apply forall_chars_impl; intros c Hc;
        now destruct (label_char_facts c Hc) as (_ & -> & _)).
  rewrite filter_append
    by (revert C; apply forall_chars_impl; intros c Hc;
        now destruct (label_char_facts c Hc) as (-> & _)).
  unfold slice_to. change (0 <=? 12) with true. cbv iota.
  rewrite take_append by (rewrite L; simpl; lia).
  split.
  - apply length_take_string. rewrite L. simpl. lia.
  - now apply forall_chars_take.
Qed.

(** Every generated label has twelve characters of the base-32 alphabet in
    lower case, the first of them a letter. *)
Lemma generate_domain_label_shape (seed timestamp_str : string) (i : Z) :
  let label := Attacker.generate_domain_label seed timestamp_str i Attacker.LABEL_LENGTH in
  String.length label = 12%nat /\
  forall_chars Spec.label_char label = true /\
  Spec.is_label label = true.
Proof.
  cbv zeta. unfold Attacker.generate_domain_label, Attacker.LABEL_LENGTH.
  destruct (raw_label_shape _ (digest_length
              (encode (seed +:+ ":" +:+ timestamp_str +:+ ":" +:+ str_of_int i))))
    as [L C].
  cbv zeta in L, C.
  destruct (slice_to 12 _) as [|c rest]; [discriminate L|].
  simpl in C. apply andb_prop in C as [Hc Hrest].
  assert (Hrest' : forall_chars isalnum rest = true).
  { revert Hrest. apply forall_chars_impl. intros d Hd.
    now destruct (label_char_facts d Hd) as (-> & _). }
  destruct (label_char_facts c Hc) as (Hc1 & _ & _ & Hc2).
  destruct (isdigit c) eqn:E.
  - split; [exact L|]. simpl. now rewrite Hrest, Hrest'.
  - split; [exact L|]. simpl. now rewrite Hc, Hrest, (Hc2 eq_refl), Hc1, Hrest'.
Qed.

End LabelGenerator.

(** ** The set rotator *)

Section SetRotator.

Import Attacker.

Lemma collect_length (acc : list string) (x : string) :
  (length acc <= length (Spec.collect acc x) <= S (length acc))%nat.
Proof.
  unfold Spec.collect. destruct (decide (x ∈ acc)); [lia|].
  rewrite length_app. simpl. lia.
Qed.

Lemma collect_NoDup (acc : list string) (x : string) :
  NoDup acc -> NoDup (Spec.collect acc x).
Proof.
  intros H. unfold Spec.collect. destruct (decide (x ∈ acc)) as [|Hx]; [exact H|].
  apply NoDup_app. split; [exact H|]. split; [|apply NoDup_singleton].
  intros y Hy ->%list_elem_of_singleton. contradiction.
Qed.

Lemma collect_Forall (P : string -> Prop) (acc : list string) (x : string) :
  Forall P acc -> P x -> Forall P (Spec.collect acc x).
Proof.
  intros Ha Hx. unfold Spec.collect. destruct (decide (x ∈ acc)); [exact Ha|].
  apply Forall_app. split; [exact Ha | now constructor].
Qed.

Lemma fold_collect_NoDup (xs acc : list string) :
  NoDup acc -> NoDup (fold_left Spec.collect xs acc).
Proof.
  revert acc. induction xs as [|x xs IH]; intros acc H; simpl; [exact H|].
  apply IH, collect_NoDup, H.
Qed.

Lemma fold_collect_Forall (P : string -> Prop) (xs acc : list string) :
  Forall P acc -> Forall P xs -> Forall P (fold_left Spec.collect xs acc).
Proof.
  revert acc. induction xs as [|x xs IH]; intros acc Ha Hx; simpl; [exact Ha|].
  inversion Hx; subst. apply IH; [now apply collect_Forall | assumption].
Qed.

Lemma labels_from_S (seed window : string) (k n : nat) :
  Spec.labels_from seed window k (S n)
  = generate_domain_label seed window (Z.of_nat k) LABEL_LENGTH
      :: Spec.labels_from seed window (S k) n.
Proof. reflexivity. Qed.

(** One turn of the loop, for a set that is not full. *)
Lemma collect_labels_S (fuel : nat) (seed window : string) (k : nat) (acc : list string) :
  (length acc < SET_SIZE)%nat ->
  collect_labels (S fuel) seed window (Z.of_nat k) acc
  = collect_labels fuel seed window (Z.of_nat (S k))
      (Spec.collect acc (generate_domain_label seed window (Z.of_nat k) LABEL_LENGTH)).
Proof.
  intros H. cbn [collect_labels].
  rewrite (proj2 (Nat.ltb_lt _ _) H).
  replace (Z.of_nat k + 1) with (Z.of_nat (S k)) by lia. reflexivity.
Qed.

Lemma collect_labels_full (fuel : nat) (seed window : string) (i : Z) (acc : list string) :
  (SET_SIZE <= length acc)%nat ->
  collect_labels fuel seed window i acc = Some acc.
Proof.
  intros H. destruct fuel; cbn [collect_labels];
    now rewrite (proj2 (Nat.ltb_ge _ _) H).
Qed.

(** With labels enough among the next [fuel] indices, the loop ends with
    the labels first seen among some [n <= fuel] of them. *)
Lemma collect_labels_spec (seed window : string) (fuel : nat) :
  forall (k : nat) (acc : list string),
    (length acc <= SET_SIZE)%nat ->
    (SET_SIZE <= length (fold_left Spec.collect (Spec.labels_from seed window k fuel) acc))%nat ->
    exists n, (n <= fuel)%nat /\
      collect_labels fuel seed window (Z.of_nat k) acc
      = Some (fold_left Spec.collect (Spec.labels_from seed window k n) acc) /\
      length (fold_left Spec.collect (Spec.labels_from seed window k n) acc) = SET_SIZE.
Proof.
  induction fuel as [|fuel IH]; intros k acc Hle Hge.
  - exists O. change (Spec.labels_from seed window k 0) with (@nil string) in *.
    cbn [fold_left] in *. split; [lia|]. split; [|lia].
    apply collect_labels_full. lia.
  - destruct (decide (length acc < SET_SIZE)%nat) as [Hlt|Hfull].
    + rewrite labels_from_S in Hge. cbn [fold_left] in Hge.
      set (x := generate_domain_label seed window (Z.of_nat k) LABEL_LENGTH) in *.
      pose proof (collect_length acc x) as Hc.
      destruct (IH (S k) (Spec.collect acc x)) as (n & Hn & Hrun & Hlen);
        [lia | exact Hge |].
      exists (S n). split; [lia|].
      rewrite collect_labels_S by exact Hlt.
      rewrite labels_from_S. cbn [fold_left]. split; assumption.
    + exists O. change (Spec.labels_from seed window k 0) with (@nil string).
      cbn [fold_left]. split; [lia|]. split; [|lia].
      apply collect_labels_full. lia.
Qed.

(** What the loop returns is full and without duplicates, and more fuel
    does not change it. *)
Lemma collect_labels_sound (seed window : string) (fuel : nat) :
  forall (i : Z) (acc labels : list string),
    collect_labels fuel seed window i acc = Some labels ->
    (length acc <= SET_SIZE)%nat -> NoDup acc ->
    length labels = SET_SIZE /\ NoDup labels /\
    forall fuel', (fuel <= fuel')%nat ->
      collect_labels fuel' seed window i acc = Some labels.
Proof.
  induction fuel as [|fuel IH]; intros i acc labels Hrun Hle Hnd.
  - cbn [collect_labels] in Hrun.
    destruct (length acc <? SET_SIZE)%nat eqn:E; [discriminate|].
    injection Hrun as <-. apply Nat.ltb_ge in E.
    split; [lia|]. split; [exact Hnd|].
    intros fuel' _. now apply collect_labels_full.
  - cbn [collect_labels] in Hrun.
    destruct (length acc <? SET_SIZE)%nat eqn:E.
    + apply Nat.ltb_lt in E.
      fold (Spec.collect acc (generate_domain_label seed window i LABEL_LENGTH)) in Hrun.
      destruct (IH _ _ _ Hrun) as (Hl & Hn & Hmono).
      { pose proof (collect_length acc (generate_domain_label seed window i LABEL_LENGTH)). lia. }
      { now apply collect_NoDup. }
      split; [exact Hl|]. split; [exact Hn|].
      intros [|fuel'] Hf; [lia|].
      cbn [collect_labels]. rewrite (proj2 (Nat.ltb_lt _ _) E).
      apply Hmono. lia.
    + injection Hrun as <-. apply Nat.ltb_ge in E.
      split; [lia|]. split; [exact Hnd|].
      intros fuel' _. now apply collect_labels_full.
Qed.

Lemma victim_label_as_attacker (seed window : string) (i n : Z) :
  Victim.generate_domain_label seed window i n = generate_domain_label seed window i n.
Proof. unfold Victim.generate_domain_label, generate_domain_label. reflexivity. Qed.

Lemma victim_collects_as_attacker (seed window : string) (fuel : nat) :
  forall (i : Z) (acc : list string),
    Victim.collect_labels fuel seed window i acc = collect_labels fuel seed window i acc.
Proof.
  induction fuel as [|fuel IH]; intros i acc.
  - reflexivity.
  - cbn [Victim.collect_labels collect_labels].
    rewrite victim_label_as_attacker, IH. reflexivity.
Qed.

Lemma labels_from_are_labels (seed window : string) (n : nat) :
  forall k, Forall (fun l => Spec.is_label l = true) (Spec.labels_from seed window k n).
Proof.
  induction n as [|n IH]; intros k; [constructor|].
  rewrite labels_from_S. constructor; [|apply IH].
  exact (proj2 (proj2 (generate_domain_label_shape seed window (Z.of_nat k)))).
Qed.

(** C1.  The label generators of the victim and of the attacker are one
    function of the seed, the time window, the index and the length, with
    the same default length: on equal arguments they return the same
    label, and so do the loops that collect the labels of a set.  The label
    is a function of these four arguments alone; for the seed of the lab,
    the window 2024-01-01 00:00 and the index 0 it is [mbhmeca4lfmu] on
    both sides. *)
Theorem generate_domain_label_shared :
  (forall seed timestamp_str index label_length,
      Victim.generate_domain_label seed timestamp_str index label_length
      = Attacker.generate_domain_label seed timestamp_str index label_length) /\
  Victim.DEFAULT_LABEL_LENGTH = Attacker.LABEL_LENGTH /\
  (forall fuel seed timestamp_str,
      Victim.collect_labels fuel seed timestamp_str 0 []
      = Attacker.generate_set fuel seed timestamp_str) /\
  Victim.generate_domain_label Victim.SEED "202401010000" 0 Victim.DEFAULT_LABEL_LENGTH
  = "mbhmeca4lfmu" /\
  Attacker.generate_domain_label Attacker.SEED "202401010000" 0 Attacker.LABEL_LENGTH
  = "mbhmeca4lfmu".
Proof.
  split; [exact victim_label_as_attacker|]. split; [reflexivity|].
  split; [intros fuel seed timestamp_str; apply victim_collects_as_attacker|].
  split; vm_compute; reflexivity.
Qed.

(** X19.  When the labels of the first [fuel] indices hold [SET_SIZE]
    distinct ones, [generate_set] returns within [fuel] turns of its loop,
    and with any more: the attacker gets the labels first seen among the
    indices from 0 up to some [n <= fuel], the victim these labels with
    their suffixes; they are [SET_SIZE] = 10, pairwise distinct, and each a
    non-empty alphanumeric string that begins with a letter. *)
Theorem generate_set_labels (fuel : nat) (seed window : string) :
  (SET_SIZE <= length (Spec.first_seen (Spec.labels_upto seed window fuel)))%nat ->
  exists n labels,
    (n <= fuel)%nat /\
    labels = Spec.first_seen (Spec.labels_upto seed window n) /\
    (forall fuel', (fuel <= fuel')%nat ->
       generate_set fuel' seed window = Some labels /\
       Victim.generate_set fuel' seed window = Some (Spec.with_suffixes labels)) /\
    length labels = 10%nat /\
    NoDup labels /\
    Forall (fun l => Spec.is_label l = true) labels.
Proof.
  intros Henough.
  destruct (collect_labels_spec seed window fuel 0 []) as (n & Hn & Hrun & Hlen);
    [simpl; unfold SET_SIZE; lia | exact Henough |].
  change (Z.of_nat 0) with 0 in Hrun.
  exists n, (Spec.first_seen (Spec.labels_upto seed window n)).
  destruct (collect_labels_sound _ _ _ _ _ _ Hrun) as (_ & Hnd & Hmono);
    [simpl; unfold SET_SIZE; lia | constructor |].
  split; [exact Hn|]. split; [reflexivity|]. split; [|split; [exact Hlen|split]].
  - intros fuel' Hf. split; [exact (Hmono fuel' Hf)|].
    unfold Victim.generate_set.
    rewrite (victim_collects_as_attacker seed window fuel' 0 []), (Hmono fuel' Hf).
    reflexivity.
  - exact Hnd.
  - exact (fold_collect_Forall _ _ [] (List.Forall_nil _)
             (labels_from_are_labels seed window n 0)).
Qed.

Lemma generate_set_labels_witness :
  exists n labels,
    (n <= 10)%nat /\
    labels = Spec.first_seen (Spec.labels_upto "spreadlove" "202401010000" n) /\
    (forall fuel', (10 <= fuel')%nat ->
       generate_set fuel' "spreadlove" "202401010000" = Some labels /\
       Victim.generate_set fuel' "spreadlove" "202401010000"
       = Some (Spec.with_suffixes labels)) /\
    length labels = 10%nat /\
    NoDup labels /\
    Forall (fun l => Spec.is_label l = true) labels.
Proof.
  apply (generate_set_labels 10 "spreadlove" "202401010000").
  vm_compute. lia.
Defined.

End SetRotator.

(** ** The choice of the active labels *)

Section ActiveSet.

Import Attacker.

Context {A : Type}.

(** A draw takes one element out of the pool: the element drawn and the
    pool left are the pool before, up to the order. *)
Lemma draw_step_permutation (pool : list A) (j : nat) (x y : A) :
  pool !! j = Some x ->
  pool !! (length pool - 1)%nat = Some y ->
  x :: take (length pool - 1) (<[j := y]> pool) ≡ₚ pool.
Proof.
  intros Hx Hy.
  pose proof (lookup_lt_Some _ _ _ Hx) as Hj.
  assert (Hsplit : exists init, pool = init ++ [y] /\ length init = (length pool - 1)%nat).
  { exists (take (length pool - 1) pool). split.
    - rewrite <- (take_drop_middle _ _ _ Hy) at 1.
      now rewrite (drop_ge pool (S (length pool - 1))) by lia.
    - rewrite length_take. lia. }
  destruct Hsplit as (init & -> & Hinit). rewrite <- Hinit. clear Hy.
  destruct (decide (j = length init)) as [->|Hne].
  - rewrite list_lookup_middle in Hx by reflexivity. injection Hx as <-.
    rewrite list_insert_id by (now rewrite list_lookup_middle).
    rewrite take_app_length. apply Permutation_cons_append.
  - rewrite length_app in Hj. simpl in Hj.
    assert (Hlt : (j < length init)%nat) by lia.
    rewrite lookup_app_l in Hx by exact Hlt.
    rewrite insert_app_l by exact Hlt.
    rewrite take_app_length' by (now rewrite length_insert).
    rewrite insert_take_drop by exact Hlt.
    rewrite <- (take_drop_middle _ _ _ Hx) at 3.
    rewrite <- !Permutation_middle, app_nil_r. simpl.
    apply perm_swap.
Qed.

(** The elements drawn, with the pool left, are the pool before. *)
Lemma draw_permutation (rnd : nat -> nat) (k : nat) :
  forall (i : nat) (pool : list A),
    (k <= length pool)%nat ->
    length (Random.draw rnd i k pool) = k /\
    exists rest, Random.draw rnd i k pool ++ rest ≡ₚ pool.
Proof.
  induction k as [|k IH]; intros i pool Hk.
  - split; [reflexivity|]. now exists pool.
  - cbn [Random.draw].
    assert (Hj : (rnd i mod length pool < length pool)%nat)
      by (apply Nat.mod_upper_bound; lia).
    destruct (lookup_lt_is_Some_2 pool _ Hj) as [x Hx].
    destruct (lookup_lt_is_Some_2 pool (length pool - 1) ltac:(lia)) as [y Hy].
    rewrite Hx, Hy.
    pose proof (draw_step_permutation pool _ x y Hx Hy) as Hperm.
    set (pool' := take (length pool - 1) (<[(rnd i mod length pool)%nat := y]> pool)) in *.
    destruct (IH (S i) pool') as [Hlen [rest Hrest]].
    { unfold pool'. rewrite length_take, length_insert. lia. }
    split; [simpl; now rewrite Hlen|].
    exists rest. simpl. now rewrite Hrest.
Qed.

End ActiveSet.

Section Rotation.

Import Attacker.

(** What [random.sample] returns on labels without duplicates. *)
Lemma sample_labels (rnd : nat -> nat) (labels : list string) (k : nat) :
  (k <= length labels)%nat -> NoDup labels ->
  exists picked,
    Random.sample rnd labels k = Ok picked /\
    length picked = k /\ NoDup picked /\ forall l, l ∈ picked -> l ∈ labels.
Proof.
  intros Hk Hnd. unfold Random.sample. rewrite decide_True by exact Hk.
  destruct (draw_permutation rnd k 0 labels Hk) as [Hlen [rest Hperm]].
  exists (Random.draw rnd 0 k labels). split; [reflexivity|]. split; [exact Hlen|].
  rewrite <- Hperm in Hnd. apply NoDup_app in Hnd as (Hnd & _ & _).
  split; [exact Hnd|].
  intros l Hl. rewrite <- Hperm. apply elem_of_app. now left.
Qed.

(** C3.  A turn of the rotation loop that comes to publish raises nothing,
    and the state it publishes holds the ten labels of the set and an
    active set that is a subset of them, of size
    [min ACTIVE_PER_SET (length labels)] = 5. *)
Theorem rotate_keeps_active_within (fuel : nat) (timestamp_str : string)
    (rnd : nat -> nat) (st : state) (r : result exn state) :
  rotate fuel timestamp_str rnd st = Some r ->
  exists st',
    r = Ok st' /\
    Spec.active_within st' /\
    generate_set fuel SEED timestamp_str = Some (current_labels st') /\
    length (current_labels st') = 10%nat /\
    size (current_active st') = 5%nat.
Proof.
  unfold rotate, generate_set. intros Hrun.
  destruct (collect_labels fuel SEED timestamp_str 0 []) as [labels|] eqn:Hset;
    [|discriminate Hrun].
  destruct (collect_labels_sound _ _ _ _ _ _ Hset) as (Hlen & Hnd & _);
    [simpl; unfold SET_SIZE; lia | constructor |].
  destruct (sample_labels rnd labels (Nat.min ACTIVE_PER_SET (length labels)))
    as (picked & Hpick & Hk & Hp & Hsub); [lia | exact Hnd |].
  cbv [mbind option_bind] in Hrun. rewrite Hpick in Hrun.
  cbv [result_bind] in Hrun. injection Hrun as <-.
  eexists. split; [reflexivity|].
  rewrite (left_id_L ∅ (∪)).
  assert (Hsize : size (list_to_set picked : gset string)
                  = Nat.min ACTIVE_PER_SET (length labels))
    by now rewrite size_list_to_set.
  unfold Spec.active_within. simpl.
  split; [split|].
  - intros l Hl. apply Hsub. now apply elem_of_list_to_set in Hl.
  - exact Hsize.
  - split; [reflexivity|]. split; [exact Hlen|].
    rewrite Hsize, Hlen. reflexivity.
Qed.

Lemma rotate_keeps_active_within_witness :
  exists st',
    @Ok exn state Examples.published = Ok st' /\
    Spec.active_within st' /\
    generate_set 10 SEED "202401010000" = Some (current_labels st') /\
    length (current_labels st') = 10%nat /\
    size (current_active st') = 5%nat.
Proof.
  apply (rotate_keeps_active_within 10 "202401010000" Examples.draws initial_state).
  vm_compute. reflexivity.
Defined.

End Rotation.

(** ** The victim and the attacker meet *)

Section Rendezvous.

Import PyStr.

Lemma label_char_plain (c : ascii) :
  Spec.label_char c = true ->
  isspace c = false /\ Ascii.eqb c "." = false.
Proof.
  destruct c as [[] [] [] [] [] [] [] []]; simpl; intros [=]; split; reflexivity.
Qed.

Lemma rstrip_plain (s : string) :
  forall_chars (fun c => negb (isspace c)) s = true -> rstrip s = s.
Proof.
  induction s as [|c s IH]; simpl; [reflexivity|].
  intros [Hc Hs]%andb_prop. rewrite (IH Hs).
  destruct s; [|reflexivity].
  now destruct (isspace c).
Qed.

Lemma strip_plain (s : string) :
  forall_chars (fun c => negb (isspace c)) s = true -> strip s = s.
Proof.
  intros H. unfold strip.
  rewrite lstrip_no_lead.
  - now apply rstrip_plain.
  - destruct s as [|c s]; [reflexivity|]. simpl in *. now apply andb_prop in H as [-> _].
Qed.

Lemma lower_plain (s : string) :
  forall_chars Spec.label_char s = true -> lower s = s.
Proof.
  induction s as [|c s IH]; simpl; [reflexivity|].
  intros [Hc Hs]%andb_prop.
  destruct (label_char_facts c Hc) as (_ & _ & -> & _). now rewrite IH.
Qed.

Lemma rsplit1_append (ch : ascii) (l t h r : string) :
  forall_chars (fun c => negb (Ascii.eqb c ch)) l = true ->
  rsplit1 ch t = Some (h, r) ->
  rsplit1 ch (l +:+ t) = Some (l +:+ h, r).
Proof.
  intros Hl Ht. induction l as [|c l IH]; simpl in *; [exact Ht|].
  apply andb_prop in Hl as [_ Hl]. now rewrite (IH Hl).
Qed.

Lemma append_empty (s : string) : s +:+ "" = s.
Proof.
  induction s as [|c s IH]; [reflexivity|].
  change (String c s +:+ "") with (String c (s +:+ "")). now rewrite IH.
Qed.

(** The attacker finds the label again in a domain of the victim. *)
Lemma domain_label_of_generated (label tld : string) :
  forall_chars Spec.label_char label = true ->
  tld ∈ Victim.TLD_LIST ->
  Attacker.domain_label_from_domain (label +:+ tld) = label.
Proof.
  intros Hl Htld.
  assert (Hplain : forall_chars (fun c => negb (isspace c)) tld = true /\
                   lower tld = tld /\
                   exists r, rsplit1 "." tld = Some (EmptyString, r)).
  { unfold Victim.TLD_LIST in Htld.
    repeat (apply elem_of_cons in Htld as [->|Htld];
            [split; [reflexivity|split; [reflexivity|eexists; reflexivity]]|]).
    now apply elem_of_nil in Htld. }
  destruct Hplain as (Hs & Hlow & r & Hr).
  rewrite domain_label_from_domain_spec, strip_plain.
  - rewrite lower_app, Hlow, (lower_plain _ Hl). unfold Spec.label_of.
    rewrite (rsplit1_append "." label tld EmptyString r).
    + apply append_empty.
    + revert Hl. apply forall_chars_impl. intros c Hc.
      now destruct (label_char_plain c Hc) as (_ & ->).
    + exact Hr.
  - apply forall_chars_append; [|exact Hs].
    revert Hl. apply forall_chars_impl. intros c Hc.
    now destruct (label_char_plain c Hc) as (-> & _).
Qed.

Lemma collect_labels_chars (seed window : string) (fuel : nat) :
  forall (i : Z) (acc labels : list string),
    Attacker.collect_labels fuel seed window i acc = Some labels ->
    Forall (fun l => forall_chars Spec.label_char l = true) acc ->
    Forall (fun l => forall_chars Spec.label_char l = true) labels.
Proof.
  induction fuel as [|fuel IH]; intros i acc labels Hrun Hacc;
    cbn [Attacker.collect_labels] in Hrun;
    destruct (length acc <? Attacker.SET_SIZE)%nat; try discriminate Hrun;
    try (injection Hrun as <-; exact Hacc).
  apply (IH _ _ _ Hrun).
  apply (collect_Forall _ acc _ Hacc).
  exact (proj1 (proj2 (generate_domain_label_shape seed window i))).
Qed.

Lemma with_suffixes_labels (f : nat -> nat) (labels : list string) :
  Forall (fun l => forall_chars Spec.label_char l = true) labels ->
  map Attacker.domain_label_from_domain
      (imap (fun i label =>
               label +:+ nth (f i mod length Victim.TLD_LIST)%nat Victim.TLD_LIST "")
            labels)
  = labels.
Proof.
  intros H. revert f. induction H as [|l labels Hl _ IH]; intros f; [reflexivity|].
  cbn [imap map]. f_equal.
  - apply domain_label_of_generated; [exact Hl|].
    apply list_elem_of_In, nth_In, Nat.mod_upper_bound. discriminate.
  - apply (IH (fun i => f (S i))).
Qed.

(** The domains the victim generates in a window carry, in order, the
    labels the attacker generates in the same window, and the attacker
    extracts them again. *)
Lemma victim_domains_carry_attacker_labels (fuel : nat) (seed window : string)
    (domains : list string) :
  Victim.generate_set fuel seed window = Some domains ->
  exists labels,
    Attacker.generate_set fuel seed window = Some labels /\
    domains = Spec.with_suffixes labels /\
    map Attacker.domain_label_from_domain domains = labels.
Proof.
  unfold Victim.generate_set, Attacker.generate_set.
  rewrite (victim_collects_as_attacker seed window fuel 0 []).
  destruct (Attacker.collect_labels fuel seed window 0 []) as [labels|] eqn:E;
    [|discriminate].
  cbv [mbind option_bind]. intros [= <-].
  exists labels. split; [reflexivity|]. split; [reflexivity|].
  apply (with_suffixes_labels (fun i => i)).
  exact (collect_labels_chars _ _ _ _ _ _ E (List.Forall_nil _)).
Qed.

End Rendezvous.

(** ** The manual block list and its file *)

Section BlockList.

Import Defender DefenderApi.



(** X2.  Unblocking a domain that is not blocked answers 404 and changes
    nothing; blocking a domain twice is blocking it once; and neither
    blocking nor unblocking a domain changes the classification of a domain
    with another normal form. *)
Theorem block_list_is_local (d other : string) (st : state) :
  Spec.normalize other <> Spec.normalize d ->
  classify_domain (api_block d st).1 other = classify_domain st other /\
  classify_domain (api_unblock d st).1 other = classify_domain st other /\
  api_block d (api_block d st).1 = api_block d st /\
  (Spec.normalize d ∉ manual_block st -> api_unblock d st = (st, 404)).
Proof.
  intros Hne.
  assert (Hframe : forall st', model st' = model st ->
             (Spec.normalize other ∈ manual_block st'
              <-> Spec.normalize other ∈ manual_block st) ->
             classify_domain st' other = classify_domain st other).
  { intros st' Hm Hb.
    destruct (decide (Spec.normalize other ∈ manual_block st)) as [Hin|Hout].
    - rewrite !classify_domain_blocked by tauto. reflexivity.
    - rewrite !classify_domain_unblocked by tauto. now rewrite Hm. }
  split; [|split; [|split]].
  - apply Hframe; [reflexivity|]. unfold api_block. cbn [fst manual_block].
    fold (Spec.normalize d). set_solver.
  - apply Hframe; unfold api_unblock; fold (Spec.normalize d);
      destruct (decide (Spec.normalize d ∈ manual_block st));
      cbn [fst manual_block model]; try reflexivity; set_solver.
  - unfold api_block. cbn [fst manual_block model]. f_equal. f_equal. set_solver.
  - intros Hout. unfold api_unblock. fold (Spec.normalize d).
    now rewrite decide_False by exact Hout.
Qed.

Lemma block_list_is_local_witness :
  classify_domain (api_block "evil-dga123.net" (State ∅ None)).1 "example.com"
  = classify_domain (State ∅ None) "example.com".
Proof.
  apply (block_list_is_local "evil-dga123.net" "example.com" (State ∅ None)).
  vm_compute. discriminate.
Defined.

Lemma load_persist_blocked (mb : gset string) : load_blocked (persist_blocked mb) = mb.
Proof.
  unfold load_blocked, persist_blocked. apply set_eq. intros x.
  rewrite elem_of_list_to_set, merge_sort_Permutation. apply elem_of_elements.
Qed.

(** X3.  The file of the blocked domains holds them sorted and each once,
    and reading it back gives the block list that was written, so that a
    block made through the endpoint is in force after a restart, whatever
    the spelling of the domain asked about. *)
Theorem block_survives_restart (b d : string) (sv : server)
    (m : option (classifier * list string)) :
  Spec.normalize d = Spec.normalize b ->
  let sv' := restart m (handle_block (Some b) sv).1 in
  (forall mb, load_blocked (persist_blocked mb) = mb) /\
  (exists names,
      blocked_file (handle_block (Some b) sv).1 = Some (Ok names) /\
      StronglySorted String.le names /\ NoDup names) /\
  manual_block (globals sv') = {[ Spec.normalize b ]} ∪ manual_block (globals sv) /\
  classify_domain (globals sv') d = ([], Ok ("DGA", 1%Q, "manual_block")).
Proof.
  intros Hsame. cbv zeta.
  split; [exact load_persist_blocked|].
  unfold handle_block, restart, api_block. cbn [fst snd blocked_file globals manual_block].
  fold (Spec.normalize b).
  split; [|split].
  - eexists. split; [reflexivity|]. split.
    + apply (StronglySorted_merge_sort String.le).
    + rewrite merge_sort_Permutation. apply NoDup_elements.
  - apply load_persist_blocked.
  - apply classify_domain_blocked. cbn [manual_block].
    rewrite load_persist_blocked, Hsame. set_solver.
Qed.

Lemma block_survives_restart_witness :
  classify_domain
    (globals (restart None
                (handle_block (Some "Evil-DGA123.net")
                   (Server (State ∅ None) [] None None)).1))
    " evil-dga123.net "
  = ([], Ok ("DGA", 1%Q, "manual_block")).
Proof.
  apply (block_survives_restart "Evil-DGA123.net" " evil-dga123.net "
           (Server (State ∅ None) [] None None) None).
  vm_compute. reflexivity.
Defined.

End BlockList.

(** ** The history of queries *)

Section History.

Import Defender DefenderApi.

Variable round4 : Q -> Q.
Variable fixed3 : Q -> string.


Lemma last_items_length {A} (n : nat) (xs : list A) :
  (length (last_items n xs) <= n)%nat.
Proof. unfold last_items. rewrite length_drop. lia. Qed.

Lemma last_items_snoc {A} (n : nat) (xs : list A) (x : A) :
  (0 < n)%nat ->
  last_items n (xs ++ [x]) = last_items (n - 1) xs ++ [x].
Proof.
  intros Hn. unfold last_items. rewrite length_app. cbn [length].
  rewrite drop_app_le by lia. f_equal. f_equal. lia.
Qed.


(** X5.  [persist_query] on a file of the queries that holds a JSON list,
    that is absent, or that holds no JSON: afterwards the file holds the
    entries it could be read to hold before and the new one, cut to the
    latest [MAX_PERSISTED] = 1000, the new one last, and nothing is logged.
    On a file that holds a JSON document that is no list, the entry is not
    stored: the file is as before and one error line is logged. *)
Theorem persist_query_keeps_latest (q : query) (f : document) :
  let run := persist_query q f in
  (Spec.no_list f ->
   run.2 = f /\
   exists line,
     run.1 = [line] /\ PyStr.startswith "ERROR: cannot persist query: " line = true) /\
  (~ Spec.no_list f ->
   exists kept,
     run = ([], Some (Ok (Victim.JArr kept))) /\
     kept = last_items MAX_PERSISTED (Spec.stored f ++ [query_json q]) /\
     (length kept <= MAX_PERSISTED)%nat /\
     last kept = Some (query_json q) /\
     Spec.stored run.2 = kept).
Proof.
  cbv zeta.
  assert (Hlist : forall f',
            Spec.stored f' = Spec.stored f ->
            persist_query q f
            = ([], Some (Ok (Victim.JArr
                               (last_items MAX_PERSISTED (Spec.stored f' ++ [query_json q]))))) ->
            exists kept,
              persist_query q f = ([], Some (Ok (Victim.JArr kept))) /\
              kept = last_items MAX_PERSISTED (Spec.stored f ++ [query_json q]) /\
              (length kept <= MAX_PERSISTED)%nat /\
              last kept = Some (query_json q) /\
              Spec.stored (persist_query q f).2 = kept).
  { intros f' Hsame Hrun. rewrite Hsame in Hrun. rewrite Hrun.
    eexists. split; [reflexivity|]. split; [reflexivity|].
    split; [apply last_items_length|]. split; [|reflexivity].
    rewrite last_items_snoc by (unfold MAX_PERSISTED; lia). apply last_snoc. }
  assert (Hother : forall v,
            f = Some (Ok v) -> (forall items, v <> Victim.JArr items) ->
            (persist_query q f).2 = f /\
            exists line,
              (persist_query q f).1 = [line] /\
              PyStr.startswith "ERROR: cannot persist query: " line = true).
  { intros v -> Hv. unfold persist_query.
    destruct v; try (split; [reflexivity | eexists; split; reflexivity]).
    now destruct (Hv items). }
  split.
  - intros (v & Hf & Hv). exact (Hother v Hf Hv).
  - intros Hno. destruct f as [[v|e]|].
    + destruct v;
        try (exfalso; apply Hno; unfold Spec.no_list; eexists;
             split; [reflexivity | intros items'; discriminate]).
      apply (Hlist (Some (Ok (Victim.JArr items)))); reflexivity.
    + apply (Hlist (Some (Raise e))); reflexivity.
    + apply (Hlist None); reflexivity.
Qed.

End History.


Lemma persist_query_keeps_latest_witness :
  let q := DefenderApi.Query "abc123.com" "NOT_DGA" 0%Q "fallback_no_model"
             "2024-01-01T00:00:00Z" in
  (DefenderApi.persist_query q (Some (Ok (Victim.JObj [])))).2
  = Some (Ok (Victim.JObj [])) /\
  exists kept,
    DefenderApi.persist_query q (Some (Raise (JSONDecodeError "Expecting value")))
    = ([], Some (Ok (Victim.JArr kept))) /\
    last kept = Some (DefenderApi.query_json q).
Proof.
  cbv zeta. split.
  - apply (persist_query_keeps_latest _ (Some (Ok (Victim.JObj [])))).
    exists (Victim.JObj []). split; [reflexivity | intros items; discriminate].
  - destruct (proj2 (persist_query_keeps_latest
                       (DefenderApi.Query "abc123.com" "NOT_DGA" 0%Q "fallback_no_model"
                          "2024-01-01T00:00:00Z")
                       (Some (Raise (JSONDecodeError "Expecting value")))))
      as (kept & Hrun & _ & _ & Hlast & _).
    + intros (v & [=] & _).
    + exists kept. split; [exact Hrun | exact Hlast].
Defined.

(** ** The features of a domain *)

Section Features.

Import PyStr Defender.

Lemma len_cons (c : ascii) (s : string) : len (String c s) = 1 + len s.
Proof. unfold len. cbn [String.length]. lia. Qed.

Lemma count_if_range (p : ascii -> bool) (s : string) : 0 <= count_if p s <= len s.
Proof.
  induction s as [|c s IH]; [unfold len; simpl; lia|].
  rewrite len_cons. cbn [count_if]. destruct (p c); lia.
Qed.

Lemma count_if_le (p q : ascii -> bool) (s : string) :
  (forall c, p c = true -> q c = true) -> count_if p s <= count_if q s.
Proof.
  intros H. induction s as [|c s IH]; [reflexivity|]. cbn [count_if].
  pose proof (H c). destruct (p c), (q c); first [lia | discriminate (H0 eq_refl)].
Qed.

Lemma count_if_disjoint (p q : ascii -> bool) (s : string) :
  (forall c, p c = true -> q c = false) -> count_if p s + count_if q s <= len s.
Proof.
  intros H. induction s as [|c s IH]; [unfold len; simpl; lia|].
  rewrite len_cons. cbn [count_if].
  pose proof (H c). destruct (p c), (q c); first [lia | discriminate (H0 eq_refl)].
Qed.

Lemma isdigit_not_alpha (c : ascii) : isdigit c = true -> isalpha c = false.
Proof. destruct c as [[] [] [] [] [] [] [] []]; simpl; intros [=]; reflexivity. Qed.

Lemma filter_shorter {A} (f : A -> bool) (l : list A) :
  (length (List.filter f l) <= length l)%nat.
Proof. induction l as [|x l IH]; simpl; [lia|]. destruct (f x); simpl; lia. Qed.

Lemma distinct_length (s : string) :
  (length (distinct s) <= String.length s)%nat /\
  (s <> "" -> 1 <= length (distinct s))%nat.
Proof.
  induction s as [|c s [IH _]]; [split; [simpl; lia | congruence]|].
  cbn [distinct length String.length].
  pose proof (filter_shorter (fun d => negb (Ascii.eqb d c)) (distinct s)).
  split; [lia | intros _; lia].
Qed.

Lemma distinct_occurs (c : ascii) (s : string) : In c (distinct s) -> 1 <= count c s.
Proof.
  unfold count. induction s as [|a s IH]; [intros []|].
  cbn [distinct count_if]. pose proof (count_if_range (Ascii.eqb c) s).
  intros [->|Hin].
  - rewrite Ascii.eqb_refl. lia.
  - apply List.filter_In in Hin as [Hin _]. specialize (IH Hin).
    destruct (Ascii.eqb c a); lia.
Qed.

Lemma ratio_range (d l : Z) : 0 <= d <= l -> 0 < l -> (0 <= IZR d / IZR l <= 1)%R.
Proof.
  intros [Hd Hl] Hpos.
  apply IZR_le in Hd, Hl. apply IZR_lt in Hpos.
  assert (Hinv : (0 < / IZR l)%R) by now apply Rinv_0_lt_compat.
  assert (Hone : (IZR l * / IZR l = 1)%R) by (field; lra).
  unfold Rdiv. split; nra.
Qed.

Lemma log2_nonpos (p : R) : (0 < p <= 1)%R -> (p * log2 p <= 0)%R.
Proof.
  intros [Hp Hle]. unfold log2.
  assert (H2 : (0 < ln 2)%R) by (pose proof ln_lt_2; lra).
  assert (Hln : (ln p <= 0)%R).
  { destruct (Rle_lt_or_eq_dec _ _ Hle) as [Hlt| ->]; [|rewrite ln_1; lra].
    pose proof (ln_increasing p 1 Hp Hlt) as H. rewrite ln_1 in H. lra. }
  assert (Hinv : (0 < / ln 2)%R) by now apply Rinv_0_lt_compat.
  assert (Hq : (ln p * / ln 2 <= 0)%R) by nra.
  unfold Rdiv. nra.
Qed.

Lemma frequency_range (c : ascii) (s : string) :
  In c (distinct s) -> (0 < Spec.frequency c s <= 1)%R.
Proof.
  intros Hin. unfold Spec.frequency.
  pose proof (distinct_occurs c s Hin) as H1.
  pose proof (count_if_range (Ascii.eqb c) s) as H2. fold (count c s) in H2.
  destruct (ratio_range (count c s) (len s)) as [_ Hle]; [lia | lia |].
  split; [|exact Hle].
  assert (0 < IZR (count c s))%R by (apply IZR_lt; lia).
  assert (0 < IZR (len s))%R by (apply IZR_lt; lia).
  assert (Hinv : (0 < / IZR (len s))%R) by now apply Rinv_0_lt_compat.
  unfold Rdiv. nra.
Qed.

Lemma entropy_nonneg (s : string) : (0 <= Spec.entropy s)%R.
Proof.
  unfold Spec.entropy.
  assert (H : forall l, (forall c, In c l -> In c (distinct s)) ->
            (fold_right Rplus 0
               (map (fun c => Spec.frequency c s * log2 (Spec.frequency c s)) l) <= 0)%R).
  { induction l as [|c l IH]; intros Hl; [simpl; lra|].
    cbn [map fold_right].
    pose proof (log2_nonpos _ (frequency_range c s (Hl c (or_introl eq_refl)))).
    specialize (IH (fun d Hd => Hl d (or_intror Hd))). lra. }
  specialize (H (distinct s) (fun c Hc => Hc)). lra.
Qed.

(** X6.  The features of every domain are in range: the counts are not
    negative, the digits and the letters together are at most the length,
    the vowels are letters, the consonants are the letters that are not
    vowels, the distinct characters are at most the length and at least
    one unless the label is empty, the digit ratio is between 0 and 1
    and the entropy is not negative. *)
Theorem features_in_range (domain : string) :
  let f := extract_features_from_domain domain in
  0 <= feat_length f /\
  0 <= feat_digits f /\ 0 <= feat_letters f /\
  feat_digits f + feat_letters f <= feat_length f /\
  0 <= feat_vowels f <= feat_letters f /\
  0 <= feat_consonants f /\
  feat_vowels f + feat_consonants f = feat_letters f /\
  0 <= feat_unique_chars f <= feat_length f /\
  (feat_length f = 0 \/ 1 <= feat_unique_chars f) /\
  (0 <= feat_digit_ratio f <= 1)%R /\
  (0 <= feat_entropy f)%R.
Proof.
  cbv zeta. rewrite extract_features_spec.
  set (label := Spec.label_of (lower (strip domain))).
  unfold Spec.features_of.
  cbn [feat_length feat_digits feat_letters feat_vowels feat_consonants
       feat_unique_chars feat_digit_ratio feat_entropy].
  pose proof (count_if_range isdigit label) as Hd.
  pose proof (count_if_range isalpha label) as Ha.
  pose proof (count_if_range isvowel label) as Hv.
  pose proof (count_if_range Spec.isconsonant label) as Hc.
  pose proof (count_if_le isvowel isalpha label isvowel_isalpha) as Hva.
  pose proof (count_if_disjoint isdigit isalpha label isdigit_not_alpha) as Hda.
  pose proof (consonants_spec label) as Hcs.
  destruct (distinct_length label) as [Hu Hu1].
  assert (Hlen : len label = Z.of_nat (String.length label)) by reflexivity.
  assert (Hratio : (0 <= (if String.eqb label "" then 0
                          else IZR (count_if isdigit label) / IZR (len label)) <= 1)%R).
  { destruct label as [|c rest]; [simpl; lra|].
    change (String.eqb (String c rest) "") with false. cbv iota.
    apply ratio_range; [lia|]. rewrite Hlen. cbn [String.length]. lia. }
  destruct Hratio as [Hr0 Hr1].
  repeat split; try lia; try assumption.
  - destruct label as [|c rest]; [left; reflexivity|].
    right. specialize (Hu1 ltac:(discriminate)). lia.
  - apply entropy_nonneg.
Qed.

Lemma append_cons (c : ascii) (s t : string) : String c s +:+ t = String c (s +:+ t).
Proof. reflexivity. Qed.

Lemma lstrip_append_plain (n : string) (c : ascii) (r : string) :
  isspace c = false -> lstrip (n +:+ String c r) = lstrip n +:+ String c r.
Proof.
  intros Hc. induction n as [|a n IH].
  - change ("" +:+ String c r) with (String c r). simpl. now rewrite Hc.
  - rewrite append_cons. cbn [lstrip]. destruct (isspace a); [exact IH | reflexivity].
Qed.

Lemma rstrip_append_plain (m : string) (c : ascii) (t : string) :
  isspace c = false -> rstrip (m +:+ String c t) = m +:+ String c (rstrip t).
Proof.
  intros Hc. induction m as [|a m IH].
  - change ("" +:+ String c t) with (String c t).
    change ("" +:+ String c (rstrip t)) with (String c (rstrip t)).
    cbn [rstrip]. destruct (rstrip t); [now rewrite Hc | reflexivity].
  - rewrite !append_cons. cbn [rstrip]. rewrite IH.
    destruct m; reflexivity.
Qed.

Lemma rsplit1_last (ch : ascii) (x y : string) :
  contains ch y = false -> rsplit1 ch (x +:+ String ch y) = Some (x, y).
Proof.
  intros Hy. induction x as [|a x IH].
  - change ("" +:+ String ch y) with (String ch y). cbn [rsplit1].
    rewrite (rsplit1_absent _ _ Hy). now rewrite Ascii.eqb_refl.
  - rewrite append_cons. cbn [rsplit1]. now rewrite IH.
Qed.

Lemma contains_lower_dot (t : string) : contains "." (lower t) = contains "." t.
Proof.
  induction t as [|c t IH]; [reflexivity|]. cbn [lower contains]. rewrite IH.
  f_equal. destruct c as [[] [] [] [] [] [] [] []]; reflexivity.
Qed.

Lemma contains_rstrip (ch : ascii) (t : string) :
  contains ch t = false -> contains ch (rstrip t) = false.
Proof.
  induction t as [|c t IH]; [reflexivity|]. cbn [contains rstrip].
  destruct (Ascii.eqb c ch) eqn:E; [discriminate|]. intros H. specialize (IH H).
  destruct (rstrip t) eqn:Er.
  - destruct (isspace c); [reflexivity|]. cbn [contains]. now rewrite E.
  - cbn [contains] in *. now rewrite E.
Qed.

(** The label of a name followed by a suffix without dot. *)
Lemma label_of_name_with_suffix (name tld : string) :
  contains "." tld = false ->
  Spec.label_of (lower (strip (name +:+ "." +:+ tld))) = lstrip (lower name).
Proof.
  intros Htld. rewrite <- strip_lower, lower_app.
  change (lower ("." +:+ tld)) with (String "." (lower tld)).
  unfold strip. rewrite lstrip_append_plain by reflexivity.
  rewrite rstrip_append_plain by reflexivity.
  unfold Spec.label_of. rewrite rsplit1_last; [reflexivity|].
  apply contains_rstrip. now rewrite contains_lower_dot.
Qed.

(** X7.  On domains of ASCII characters the features are those of the
    name before the last dot: two such domains that differ in the suffix
    after it have the same features, those of the name in lower case
    without the white space before it.  (Outside ASCII the lower case of a
    character can depend on what follows the dot, as for the Greek sigma.)
    A domain and the domain in lower case without the white space around
    it have the same features. *)
Theorem features_ignore_the_suffix (name tld tld' : string) :
  isascii name = true ->
  isascii tld = true ->
  isascii tld' = true ->
  contains "." tld = false ->
  contains "." tld' = false ->
  extract_features_from_domain (name +:+ "." +:+ tld)
  = extract_features_from_domain (name +:+ "." +:+ tld') /\
  extract_features_from_domain (name +:+ "." +:+ tld)
  = Spec.features_of (lstrip (lower name)) /\
  forall domain,
    extract_features_from_domain (lower (strip domain))
    = extract_features_from_domain domain.
Proof.
  intros _ _ _ H H'. rewrite !extract_features_spec, !label_of_name_with_suffix by assumption.
  split; [reflexivity|]. split; [reflexivity|].
  intros domain. now rewrite !extract_features_spec, normalize_idem.
Qed.

Lemma features_ignore_the_suffix_witness :
  extract_features_from_domain (" Abc123" +:+ "." +:+ "com")
  = extract_features_from_domain (" Abc123" +:+ "." +:+ "online ").
Proof.
  apply (features_ignore_the_suffix " Abc123" "com" "online "); reflexivity.
Defined.

End Features.

(** ** The entropy of a label *)

Section Entropy.

Import PyStr Defender.

Lemma occurs_distinct (c : ascii) (s : string) : 1 <= count c s -> In c (distinct s).
Proof.
  unfold count. induction s as [|a s IH]; [cbn; lia|].
  cbn [distinct count_if]. intros H.
  destruct (Ascii.eqb c a) eqn:E.
  - left. symmetry. now apply Ascii.eqb_eq.
  - right. apply List.filter_In. split; [apply IH; lia|]. now rewrite E.
Qed.

Lemma distinct_NoDup (s : string) : List.NoDup (distinct s).
Proof.
  induction s as [|a s IH]; [constructor|]. cbn [distinct]. constructor.
  - intros [_ H]%List.filter_In. now rewrite Ascii.eqb_refl in H.
  - now apply List.NoDup_filter.
Qed.

Lemma filter_absent (a : ascii) (l : list ascii) :
  ~ In a l -> List.filter (fun d => negb (Ascii.eqb d a)) l = l.
Proof.
  induction l as [|x l IH]; intros Hout; [reflexivity|]. cbn [List.filter].
  destruct (Ascii.eqb x a) eqn:E.
  - apply Ascii.eqb_eq in E. subst x. exfalso. apply Hout. now left.
  - cbn [negb]. f_equal. apply IH. intros Hin. apply Hout. now right.
Qed.

(** A sum over a list without duplicates, split at one value. *)
Lemma sum_split (f : ascii -> Z) (a : ascii) (l : list ascii) :
  List.NoDup l -> (~ In a l -> f a = 0) ->
  f a + fold_right Z.add 0 (map f (List.filter (fun d => negb (Ascii.eqb d a)) l))
  = fold_right Z.add 0 (map f l).
Proof.
  induction l as [|x l IH]; intros Hnd Hout.
  - cbn. rewrite Hout by tauto. lia.
  - inversion Hnd as [|? ? Hx Hl]; subst. cbn [List.filter map fold_right].
    destruct (Ascii.eqb x a) eqn:E; cbn [negb].
    + apply Ascii.eqb_eq in E. subst x. now rewrite filter_absent.
    + cbn [map fold_right].
      rewrite <- IH; [lia | exact Hl |].
      intros Ha. apply Hout. intros [->|Hin]; [|contradiction].
      now rewrite Ascii.eqb_refl in E.
Qed.

Lemma sum_ext (f g : ascii -> Z) (l : list ascii) :
  (forall c, In c l -> f c = g c) ->
  fold_right Z.add 0 (map f l) = fold_right Z.add 0 (map g l).
Proof.
  induction l as [|x l IH]; intros H; [reflexivity|]. cbn [map fold_right].
  rewrite (H x) by now left. rewrite IH; [reflexivity|].
  intros c Hc. apply H. now right.
Qed.

(** The occurrences of the distinct characters of a string are all its
    characters. *)
Lemma occurrences_partition (s : string) :
  fold_right Z.add 0 (map (fun c => count c s) (distinct s)) = len s.
Proof.
  induction s as [|a s IH]; [reflexivity|].
  rewrite len_cons. cbn [distinct map fold_right].
  rewrite (sum_ext (fun c => count c (String a s)) (fun c => count c s)).
  - rewrite <- IH, <- (sum_split (fun c => count c s) a (distinct s)).
    + unfold count at 1. cbn [count_if]. rewrite Ascii.eqb_refl. unfold count. lia.
    + apply distinct_NoDup.
    + intros Hout. pose proof (count_if_range (Ascii.eqb a) s) as Hr.
      destruct (decide (1 <= count a s)) as [H1|H0]; [|unfold count in *; lia].
      exfalso. apply Hout. now apply occurs_distinct.
  - intros c [_ Hc]%List.filter_In. unfold count. cbn [count_if].
    destruct (Ascii.eqb c a); [discriminate Hc | lia].
Qed.

Lemma sum_at_least (g : ascii -> Z) (l : list ascii) :
  (forall x, In x l -> 1 <= g x) ->
  Z.of_nat (length l) <= fold_right Z.add 0 (map g l).
Proof.
  induction l as [|x l IH]; intros Hge; [reflexivity|].
  cbn [map fold_right length].
  pose proof (Hge x (or_introl eq_refl)).
  specialize (IH (fun y Hy => Hge y (or_intror Hy))). lia.
Qed.

Lemma sum_above (g : ascii -> Z) (l : list ascii) (c : ascii) :
  (forall x, In x l -> 1 <= g x) -> In c l ->
  g c + Z.of_nat (length l) - 1 <= fold_right Z.add 0 (map g l).
Proof.
  induction l as [|x l IH]; intros Hge Hc; [destruct Hc|].
  cbn [map fold_right length].
  pose proof (Hge x (or_introl eq_refl)) as Hx.
  destruct Hc as [->|Hc].
  - pose proof (sum_at_least g l (fun y Hy => Hge y (or_intror Hy))). lia.
  - specialize (IH (fun y Hy => Hge y (or_intror Hy)) Hc). lia.
Qed.

(** A character of a string with two distinct characters or more is not
    all of it. *)
Lemma frequency_below_one (c : ascii) (s : string) :
  In c (distinct s) -> (2 <= length (distinct s))%nat -> (Spec.frequency c s < 1)%R.
Proof.
  intros Hc Htwo. unfold Spec.frequency.
  pose proof (sum_above (fun x => count x s) (distinct s) c
                (fun x Hx => distinct_occurs x s Hx) Hc) as Hsum.
  rewrite occurrences_partition in Hsum.
  pose proof (distinct_occurs c s Hc) as Hone.
  assert (Hlt : (IZR (count c s) < IZR (len s))%R) by (apply IZR_lt; lia).
  assert (Hpos : (0 < IZR (len s))%R) by (apply IZR_lt; lia).
  assert (Hinv : (0 < / IZR (len s))%R) by now apply Rinv_0_lt_compat.
  assert (Hunit : (IZR (len s) * / IZR (len s) = 1)%R) by (field; lra).
  unfold Rdiv. nra.
Qed.

Lemma log2_negative (p : R) : (0 < p < 1)%R -> (p * log2 p < 0)%R.
Proof.
  intros [Hp Hlt]. unfold log2.
  assert (H2 : (0 < ln 2)%R) by (pose proof ln_lt_2; lra).
  pose proof (ln_increasing p 1 Hp Hlt) as Hln. rewrite ln_1 in Hln.
  assert (Hinv : (0 < / ln 2)%R) by now apply Rinv_0_lt_compat.
  assert (Hq : (ln p * / ln 2 < 0)%R) by nra.
  unfold Rdiv. nra.
Qed.

Lemma sum_negative (g : ascii -> R) (l : list ascii) :
  l <> [] -> (forall c, In c l -> (g c < 0)%R) ->
  (fold_right Rplus 0 (map g l) < 0)%R.
Proof.
  induction l as [|x l IH]; intros Hne Hneg; [congruence|].
  cbn [map fold_right].
  pose proof (Hneg x (or_introl eq_refl)) as Hx.
  destruct l as [|y l]; [cbn; lra|].
  assert (fold_right Rplus 0 (map g (y :: l)) < 0)%R.
  { apply IH; [discriminate|]. intros c Hc. apply Hneg. now right. }
  lra.
Qed.

(** X8.  The occurrences that [shannon_entropy] counts, one number for
    each distinct character, add up to the length of the label.  The
    entropy is zero exactly for the labels with one distinct character at
    most (the empty label and a repeated character), and above zero
    exactly for the labels with two distinct characters or more. *)
Theorem entropy_zero_iff_one_character (label : string) :
  fold_right Z.add 0 (map (fun c => count c label) (distinct label)) = len label /\
  (shannon_entropy label = 0%R <-> (length (distinct label) <= 1)%nat) /\
  ((0 < shannon_entropy label)%R <-> (2 <= length (distinct label))%nat).
Proof.
  split; [apply occurrences_partition|].
  rewrite shannon_entropy_spec.
  assert (Hfew : (length (distinct label) <= 1)%nat -> Spec.entropy label = 0%R).
  { intros Hone. unfold Spec.entropy.
    destruct (distinct label) as [|c [|d l]] eqn:E; cbn [length] in Hone; [| |lia].
    - cbn. lra.
    - cbn [map fold_right].
      assert (Hc : Spec.frequency c label = 1%R).
      { pose proof (occurrences_partition label) as Hsum. rewrite E in Hsum.
        cbn [map fold_right] in Hsum.
        assert (Hin : In c (distinct label)) by (rewrite E; now left).
        pose proof (distinct_occurs c label Hin).
        unfold Spec.frequency. replace (count c label) with (len label) by lia.
        field. apply not_0_IZR. lia. }
      rewrite Hc. unfold log2. rewrite ln_1. lra. }
  assert (Hmany : (2 <= length (distinct label))%nat -> (0 < Spec.entropy label)%R).
  { intros Htwo. unfold Spec.entropy.
    assert (fold_right Rplus 0
              (map (fun c => Spec.frequency c label * log2 (Spec.frequency c label))
                   (distinct label)) < 0)%R; [|lra].
    apply sum_negative.
    - intros E. rewrite E in Htwo. cbn in Htwo. lia.
    - intros c Hc. apply log2_negative. split.
      + apply (frequency_range c label Hc).
      + now apply frequency_below_one. }
  split; split.
  - intros Hzero. destruct (le_lt_dec (length (distinct label)) 1) as [H|H]; [exact H|].
    specialize (Hmany H). lra.
  - exact Hfew.
  - intros Hpos. destruct (le_lt_dec (length (distinct label)) 1) as [H|H]; [|lia].
    specialize (Hfew H). lra.
  - exact Hmany.
Qed.

Lemma entropy_zero_iff_one_character_witness :
  shannon_entropy "aaaa" = 0%R /\ (0 < shannon_entropy "abcd1234")%R.
Proof.
  split.
  - apply (entropy_zero_iff_one_character "aaaa"). cbn. lia.
  - apply (entropy_zero_iff_one_character "abcd1234"). cbn. lia.
Defined.

End Entropy.

(** ** The length of a label *)

Section LabelLength.

Import PyStr.

Lemma half_quintet_label_chars (b0 b1 : byte) :
  let s := lower (decode (firstn 4 (Base32.quintet b0 b1 x00 x00 x00))) in
  String.length s = 4%nat /\ forall_chars Spec.label_char s = true.
Proof.
  cbv zeta. unfold Base32.quintet, decode, string_of_list_byte.
  cbn [List.map firstn string_of_list_ascii lower String.length forall_chars].
  split; [reflexivity|].
  rewrite !symbol_label_char. reflexivity.
Qed.

(** The symbols of a string of label characters pass the two filters. *)
Lemma clean_append (g rest : string) :
  forall_chars Spec.label_char g = true ->
  filter isalnum (remove_char "=" (g +:+ rest))
  = g +:+ filter isalnum (remove_char "=" rest).
Proof.
  intros Hg.
  rewrite remove_char_app
    by (revert Hg; apply forall_chars_impl; intros c Hc;
        now destruct (label_char_facts c Hc) as (_ & -> & _)).
  apply filter_append.
  revert Hg. apply forall_chars_impl. intros c Hc.
  now destruct (label_char_facts c Hc) as (-> & _).
Qed.

(** The digest in base 32, in lower case and without padding: 52 label
    characters. *)
Lemma digest_symbols_shape (digest : list byte) :
  length digest = 32%nat ->
  let b32 := remove_char "=" (lower (decode (Base32.b32encode digest))) in
  String.length (filter isalnum b32) = Spec.digest_symbols /\
  forall_chars Spec.label_char (filter isalnum b32) = true.
Proof.
  intros Hlen.
  do 32 (destruct digest as [|? digest]; [discriminate Hlen|]).
  destruct digest; [|discriminate Hlen]. clear Hlen.
  match goal with
  | |- context [Base32.b32encode [?a0; ?a1; ?a2; ?a3; ?a4; ?c0; ?c1; ?c2; ?c3; ?c4;
                                  ?d0; ?d1; ?d2; ?d3; ?d4; ?e0; ?e1; ?e2; ?e3; ?e4;
                                  ?f0; ?f1; ?f2; ?f3; ?f4; ?g0; ?g1; ?g2; ?g3; ?g4;
                                  ?h0; ?h1]] =>
      change (Base32.b32encode [a0; a1; a2; a3; a4; c0; c1; c2; c3; c4;
                                d0; d1; d2; d3; d4; e0; e1; e2; e3; e4;
                                f0; f1; f2; f3; f4; g0; g1; g2; g3; g4; h0; h1])
        with (Base32.quintet a0 a1 a2 a3 a4 ++ Base32.quintet c0 c1 c2 c3 c4 ++
              Base32.quintet d0 d1 d2 d3 d4 ++ Base32.quintet e0 e1 e2 e3 e4 ++
              Base32.quintet f0 f1 f2 f3 f4 ++ Base32.quintet g0 g1 g2 g3 g4 ++
              firstn 4 (Base32.quintet h0 h1 x00 x00 x00) ++ Base32.equals 4);
      destruct (quintet_label_chars a0 a1 a2 a3 a4) as [L1 C1];
      destruct (quintet_label_chars c0 c1 c2 c3 c4) as [L2 C2];
      destruct (quintet_label_chars d0 d1 d2 d3 d4) as [L3 C3];
      destruct (quintet_label_chars e0 e1 e2 e3 e4) as [L4 C4];
      destruct (quintet_label_chars f0 f1 f2 f3 f4) as [L5 C5];
      destruct (quintet_label_chars g0 g1 g2 g3 g4) as [L6 C6];
      destruct (half_quintet_label_chars h0 h1) as [L7 C7]
  end.
  cbv zeta in *.
  rewrite !decode_app, !lower_app.
  rewrite !clean_append by assumption.
  change (filter isalnum (remove_char "=" (lower (decode (Base32.equals 4)))))
    with EmptyString.
  split.
  - rewrite !length_append, L1, L2, L3, L4, L5, L6, L7. reflexivity.
  - repeat (apply forall_chars_append; [assumption|]). reflexivity.
Qed.

Lemma length_take_min (n : nat) (s : string) :
  String.length (take n s) = Nat.min n (String.length s).
Proof.
  revert n. induction s as [|c s IH]; intros [|n]; simpl; try reflexivity.
  now rewrite IH.
Qed.

Lemma slice_to_length (n : Z) (s : string) :
  String.length s = Spec.digest_symbols ->
  String.length (slice_to n s) = Spec.sliced_length n.
Proof.
  intros Hs. unfold slice_to, Spec.sliced_length, len. rewrite Hs.
  destruct (0 <=? n) eqn:E; rewrite length_take_min, Hs; [reflexivity|].
  apply Z.leb_gt in E. unfold Spec.digest_symbols. lia.
Qed.

Lemma slice_to_chars (p : ascii -> bool) (n : Z) (s : string) :
  forall_chars p s = true -> forall_chars p (slice_to n s) = true.
Proof. intros H. unfold slice_to. destruct (0 <=? n); now apply forall_chars_take. Qed.

(** X9.  For every seed, window, index and length [n], the label has
    [min n 52] characters when [n] is not negative and [max (52 + n) 0]
    when it is, all of them lower-case letters or digits from 2 to 7; it
    is empty exactly for [n = 0] and [n <= -52], and otherwise begins with
    a letter.  The victim's generator gives the same. *)
Theorem generate_domain_label_length (seed timestamp_str : string) (index n : Z) :
  let label := Attacker.generate_domain_label seed timestamp_str index n in
  Victim.generate_domain_label seed timestamp_str index n = label /\
  String.length label = Spec.sliced_length n /\
  forall_chars Spec.label_char label = true /\
  (label = "" <-> n = 0 \/ n <= -52) /\
  (label = "" \/ Spec.is_label label = true).
Proof.
  cbv zeta. split; [apply victim_label_as_attacker|].
  unfold Attacker.generate_domain_label.
  destruct (digest_symbols_shape _ (digest_length
              (encode (seed +:+ ":" +:+ timestamp_str +:+ ":" +:+ str_of_int index))))
    as [L C].
  cbv zeta in L, C.
  pose proof (slice_to_length n _ L) as Hlen.
  pose proof (slice_to_chars _ n _ C) as Hchars.
  assert (Hempty : Spec.sliced_length n = O <-> n = 0 \/ n <= -52).
  { unfold Spec.sliced_length, Spec.digest_symbols.
    destruct (0 <=? n) eqn:E; [apply Z.leb_le in E | apply Z.leb_gt in E]; lia. }
  destruct (slice_to n _) as [|c rest].
  - split; [exact Hlen|]. split; [reflexivity|]. split; [|now left].
    rewrite <- Hempty, <- Hlen. split; reflexivity.
  - simpl in Hchars. apply andb_prop in Hchars as [Hc Hrest].
    assert (Hrest' : forall_chars isalnum rest = true).
    { revert Hrest. apply forall_chars_impl. intros d Hd.
      now destruct (label_char_facts d Hd) as (-> & _). }
    destruct (label_char_facts c Hc) as (Hc1 & _ & _ & Hc2).
    assert (Hnonempty : ~ (n = 0 \/ n <= -52)).
    { rewrite <- Hempty, <- Hlen. discriminate. }
    destruct (isdigit c) eqn:E.
    + split; [exact Hlen|]. split; [simpl; now rewrite Hrest|].
      split; [split; [discriminate | tauto]|]. right. simpl. now rewrite Hrest'.
    + split; [exact Hlen|]. split; [simpl; now rewrite Hc, Hrest|].
      split; [split; [discriminate | tauto]|]. right. simpl.
      now rewrite (Hc2 eq_refl), Hc1, Hrest'.
Qed.

End LabelLength.

(** ** The requests the attacker answers *)

Section Requests.

Import PyStr Attacker.

Lemma split_head_absent (ch : ascii) (s : string) :
  contains ch s = false -> split_head ch s = s.
Proof.
  induction s as [|c s IH]; [reflexivity|]. cbn [contains split_head].
  destruct (Ascii.eqb c ch); [discriminate|]. intros H. now rewrite IH.
Qed.

Lemma split_head_append (ch : ascii) (s t : string) :
  contains ch s = false -> split_head ch (s +:+ String ch t) = s.
Proof.
  induction s as [|c s IH].
  - intros _. change ("" +:+ String ch t) with (String ch t). cbn [split_head].
    now rewrite Ascii.eqb_refl.
  - rewrite append_cons. cbn [contains split_head].
    destruct (Ascii.eqb c ch); [discriminate|]. intros H. now rewrite IH.
Qed.

Lemma allowed_domains (d : string) :
  d ∈ ALLOWED_DOMAINS <-> d = "google.com" \/ d = "microsoft.com" \/ d = "facebook.com".
Proof. unfold ALLOWED_DOMAINS. set_solver. Qed.

(** X10.  The handler [catch_all], called on a request whose [Host]
    header names a domain of the allow-list, in any mix of cases and with
    or without a port, answers with the greeting that names the domain in
    lower case: its argument [path] and the label sets play no part.  Which
    requests reach the handler is the routing of Flask and not part of the
    statement. *)
Theorem greeting_ignores_port_and_case (host port path src : string) (st : state) :
  contains ":" host = false ->
  lower host ∈ ALLOWED_DOMAINS ->
  let greeting :=
    (Response ("hi from " +:+ lower host) 200 (Some "text/plain"),
     "Allowed domain request from " +:+ src +:+ " for " +:+ lower host
       +:+ " -> replying greeting") in
  catch_all (Some host) path src st = greeting /\
  catch_all (Some (host +:+ ":" +:+ port)) path src st = greeting.
Proof.
  intros Hhost Hallowed. cbv zeta.
  assert (Hreq : forall h, split_head ":" h = host ->
                   catch_all (Some h) path src st
                   = (Response ("hi from " +:+ lower host) 200 (Some "text/plain"),
                      "Allowed domain request from " +:+ src +:+ " for " +:+ lower host
                        +:+ " -> replying greeting")).
  { intros h Hh. unfold catch_all, requested_domain.
    change (default "" (Some h)) with h. rewrite Hh.
    assert (String.eqb (lower host) "" = false) as ->.
    { apply allowed_domains in Hallowed as [-> | [-> | ->]]; reflexivity. }
    unfold decide_request. now rewrite decide_True by exact Hallowed. }
  split; apply Hreq.
  - now apply split_head_absent.
  - now apply split_head_append.
Qed.

Lemma greeting_ignores_port_and_case_witness :
  (catch_all (Some ("Google.COM" +:+ ":" +:+ "8080")) "" "10.0.0.7" initial_state).1
  = Response "hi from google.com" 200 (Some "text/plain").
Proof.
  destruct (greeting_ignores_port_and_case "Google.COM" "8080" "" "10.0.0.7" initial_state)
    as [_ H]; [reflexivity | decide_by_computation |].
  now rewrite H.
Defined.

(** What a turn of the rotation loop publishes. *)
Lemma rotate_publishes (fuel : nat) (timestamp_str : string) (rnd : nat -> nat)
    (st0 st : state) :
  rotate fuel timestamp_str rnd st0 = Some (Ok st) ->
  generate_set fuel SEED timestamp_str = Some (current_labels st) /\
  length (current_labels st) = 10%nat /\
  NoDup (current_labels st) /\
  size (current_active st) = 5%nat /\
  forall l, l ∈ current_active st -> l ∈ current_labels st.
Proof.
  unfold rotate, generate_set. intros Hrun.
  destruct (collect_labels fuel SEED timestamp_str 0 []) as [labels|] eqn:Hset;
    [|discriminate Hrun].
  destruct (collect_labels_sound _ _ _ _ _ _ Hset) as (Hlen & Hnd & _);
    [simpl; unfold SET_SIZE; lia | constructor |].
  destruct (sample_labels rnd labels (Nat.min ACTIVE_PER_SET (length labels)))
    as (picked & Hpick & Hk & Hp & Hsub); [lia | exact Hnd |].
  cbv [mbind option_bind] in Hrun. rewrite Hpick in Hrun.
  cbv [result_bind] in Hrun. injection Hrun as <-.
  cbn [current_labels current_active].
  rewrite (left_id_L ∅ (∪)).
  split; [reflexivity|]. split; [exact Hlen|]. split; [exact Hnd|]. split.
  - rewrite size_list_to_set by exact Hp. rewrite Hk, Hlen. reflexivity.
  - intros l Hl. apply Hsub. now apply elem_of_list_to_set in Hl.
Qed.

Lemma contains_append (ch : ascii) (s t : string) :
  contains ch (s +:+ t) = contains ch s || contains ch t.
Proof.
  induction s as [|c s IH]; [reflexivity|]. rewrite append_cons. cbn [contains].
  destruct (Ascii.eqb c ch); [reflexivity | exact IH].
Qed.

Lemma label_char_no_colon (s : string) :
  forall_chars Spec.label_char s = true -> contains ":" s = false.
Proof.
  induction s as [|c s IH]; [reflexivity|]. cbn [forall_chars contains].
  intros [Hc Hs]%andb_prop. rewrite (IH Hs).
  destruct c as [[] [] [] [] [] [] [] []]; try reflexivity; discriminate Hc.
Qed.

(** A domain of the victim is the domain the handler works on. *)
Lemma requested_generated_domain (label tld path : string) :
  forall_chars Spec.label_char label = true ->
  tld ∈ Victim.TLD_LIST ->
  requested_domain (Some (label +:+ tld)) path = label +:+ tld.
Proof.
  intros Hl Htld.
  assert (Hplain : contains ":" tld = false /\ lower tld = tld /\ tld <> "").
  { unfold Victim.TLD_LIST in Htld.
    repeat (apply elem_of_cons in Htld as [->|Htld];
            [split; [reflexivity|split; [reflexivity|discriminate]]|]).
    now apply elem_of_nil in Htld. }
  destruct Hplain as (Hc & Hlow & Hne).
  unfold requested_domain. change (default "" (Some (label +:+ tld))) with (label +:+ tld).
  rewrite split_head_absent
    by (rewrite contains_append, (label_char_no_colon _ Hl), Hc; reflexivity).
  rewrite lower_app, Hlow, (lower_plain _ Hl).
  destruct (label +:+ tld) eqn:E; [|reflexivity].
  destruct label; [|discriminate E]. now destruct tld.
Qed.

Lemma filter_length_map {A} (f : A -> string) (X : gset string) (l : list A) :
  length (base.filter (fun a => f a ∈ X) l) = length (base.filter (fun x => x ∈ X) (map f l)).
Proof.
  induction l as [|a l IH]; [reflexivity|]. cbn [map].
  rewrite !filter_cons. destruct (decide (f a ∈ X)); cbn [length]; now rewrite IH.
Qed.

Lemma filter_active_length (labels : list string) (active : gset string) :
  NoDup labels -> (forall l, l ∈ active -> l ∈ labels) ->
  length (base.filter (fun l => l ∈ active) labels) = size active.
Proof.
  intros Hnd Hsub.
  rewrite <- (size_list_to_set (C := gset string)) by now apply NoDup_filter.
  f_equal. apply set_eq. intros x.
  rewrite elem_of_list_to_set, list_elem_of_filter. split; [tauto | auto].
Qed.

(** A property of every generated label holds of the labels collected. *)
Lemma collect_labels_all (P : string -> Prop) (seed window : string) (fuel : nat) :
  (forall i, P (generate_domain_label seed window i LABEL_LENGTH)) ->
  forall (i : Z) (acc labels : list string),
    collect_labels fuel seed window i acc = Some labels ->
    Forall P acc -> Forall P labels.
Proof.
  intros HP. induction fuel as [|fuel IH]; intros i acc labels Hrun Hacc;
    cbn [collect_labels] in Hrun;
    destruct (length acc <? SET_SIZE)%nat; try discriminate Hrun;
    try (injection Hrun as <-; exact Hacc).
  apply (IH _ _ _ Hrun). apply (collect_Forall _ acc _ Hacc). apply HP.
Qed.

(** X11.  In a window in which both have generated their set, every
    domain of the victim is one the attacker knows: sent as [Host] header
    it is never ignored and never greeted; it is answered "C2 server
    connected" with status 200 when its label is active, and with an empty
    404 logged as dropped when it is not; and exactly five of the ten
    domains of the victim are answered by the C2. *)
Theorem victim_domains_meet_the_c2 (fuel fuel' : nat) (window : string)
    (rnd : nat -> nat) (st0 st : state) (domains : list string) :
  rotate fuel window rnd st0 = Some (Ok st) ->
  Victim.generate_set fuel' Victim.SEED window = Some domains ->
  map domain_label_from_domain domains = current_labels st /\
  length (base.filter (fun d => domain_label_from_domain d ∈ current_active st) domains)
  = 5%nat /\
  forall d path src,
    d ∈ domains ->
    let label := domain_label_from_domain d in
    let out := catch_all (Some d) path src st in
    label ∈ current_labels st /\
    (label ∈ current_active st ->
     out.1 = Response "C2 server connected" 200 (Some "text/plain") /\
     Spec.logged_as out.2 = Some Spec.Accepted) /\
    (label ∉ current_active st ->
     out.1 = Response "" 404 None /\ Spec.logged_as out.2 = Some Spec.Dropped).
Proof.
  intros Hrot Hvic.
  destruct (rotate_publishes _ _ _ _ _ Hrot) as (Hset & Hlen & Hnd & Hsize & Hsub).
  destruct (victim_domains_carry_attacker_labels _ _ _ _ Hvic)
    as (labels & Hlabels & Hdomains & Hmap).
  assert (Hsame : labels = current_labels st).
  { unfold generate_set in Hset, Hlabels. change Victim.SEED with SEED in Hlabels.
    destruct (collect_labels_sound _ _ _ _ _ _ Hset) as (_ & _ & Hm1);
      [simpl; unfold SET_SIZE; lia | constructor |].
    destruct (collect_labels_sound _ _ _ _ _ _ Hlabels) as (_ & _ & Hm2);
      [simpl; unfold SET_SIZE; lia | constructor |].
    specialize (Hm1 (Nat.max fuel fuel') ltac:(lia)).
    specialize (Hm2 (Nat.max fuel fuel') ltac:(lia)). congruence. }
  rewrite Hsame in Hmap, Hdomains. clear Hlabels Hsame labels.
  assert (Hshape : Forall (fun l => String.length l = 12%nat /\
                                   forall_chars Spec.label_char l = true)
                     (current_labels st)).
  { unfold generate_set in Hset.
    refine (collect_labels_all _ SEED window fuel _ 0 [] _ Hset (List.Forall_nil _)).
    intros i. destruct (generate_domain_label_shape SEED window i) as (H1 & H2 & _).
    split; assumption. }
  rewrite Forall_forall in Hshape.
  split; [exact Hmap|]. split.
  - rewrite filter_length_map, Hmap, filter_active_length by assumption. exact Hsize.
  - intros d path src Hd. cbv zeta.
    rewrite Hdomains in Hd. unfold Spec.with_suffixes in Hd.
    apply elem_of_lookup_imap in Hd as (i & l & -> & Hl).
    assert (Hin : l ∈ current_labels st) by (eapply list_elem_of_lookup_2, Hl).
    destruct (Hshape l Hin) as [Hl12 Hgood].
    assert (Htld : nth (i mod length Victim.TLD_LIST)%nat Victim.TLD_LIST "" ∈ Victim.TLD_LIST).
    { apply list_elem_of_In, nth_In, Nat.mod_upper_bound. discriminate. }
    set (tld := nth (i mod length Victim.TLD_LIST)%nat Victim.TLD_LIST "") in *.
    assert (Hlabel : domain_label_from_domain (l +:+ tld) = l)
      by now apply domain_label_of_generated.
    rewrite Hlabel.
    unfold catch_all. rewrite requested_generated_domain by assumption.
    unfold decide_request. rewrite Hlabel.
    assert (Hnot : l +:+ tld ∉ ALLOWED_DOMAINS).
    { intros Ha. apply allowed_domains in Ha.
      destruct Ha as [E | [E | E]]; rewrite E in Hlabel;
        vm_compute in Hlabel; rewrite <- Hlabel in Hl12; discriminate Hl12. }
    rewrite decide_False by exact Hnot.
    rewrite decide_True by exact Hin.
    split; [exact Hin|]. split; intros Hact.
    + rewrite decide_True by exact Hact. split; reflexivity.
    + rewrite decide_False by exact Hact. split; reflexivity.
Qed.

Lemma victim_domains_meet_the_c2_witness :
  map domain_label_from_domain Examples.victim_domains
  = current_labels Examples.published /\
  length (base.filter (fun d => domain_label_from_domain d ∈ current_active Examples.published)
            Examples.victim_domains)
  = 5%nat.
Proof.
  refine (let H := victim_domains_meet_the_c2 10 10 "202401010000" Examples.draws
                     initial_state Examples.published Examples.victim_domains _ _ in
          conj (proj1 H) (proj1 (proj2 H))); vm_compute; reflexivity.
Defined.



End Requests.

(** ** The loops of the victim *)

Section VictimTraffic.

Import Victim VictimLoops.

Variable str_of_json : json -> string.
Variable repr : string -> string.

(** [handle_domain] sends the domain to the defender once, and attempts at
    most one connection, to that domain. *)
Lemma handle_domain_traffic (domain : string) (post conn : result exn http_response) :
  let events := (handle_domain str_of_json repr domain post conn).1 in
  Spec.posted events = [domain] /\
  (Spec.connected events = [] \/ Spec.connected events = [domain]).
Proof.
  cbv zeta. unfold handle_domain, send_to_defender.
  destruct (_ ← post; _) as [a|[]]; cbn [fst snd verdict];
    try (split; [reflexivity | left; reflexivity]).
  destruct (is_str (verdict a) "NOT_DGA").
  - unfold simulate_connection.
    destruct conn as [r|[]]; (split; [reflexivity | right; reflexivity]).
  - destruct (is_str (verdict a) "DGA"); (split; [reflexivity | left; reflexivity]).
Qed.

Lemma posted_app (events later : list event) :
  Spec.posted (events ++ later) = Spec.posted events ++ Spec.posted later.
Proof. apply omap_app. Qed.

Lemma connected_app (events later : list event) :
  Spec.connected (events ++ later) = Spec.connected events ++ Spec.connected later.
Proof. apply omap_app. Qed.


Lemma interactive_domain_dotted (user_input : string) :
  PyStr.contains "." (interactive_domain user_input) = true.
Proof.
  unfold interactive_domain. destruct (PyStr.contains "." user_input) eqn:E; [exact E|].
  rewrite contains_append. apply orb_true_r.
Qed.

(** X14.  Every domain the interactive loop sends to the defender is a
    line of the input without the white space around it, with [.com]
    appended when it holds no dot: it holds a dot, and it comes from a
    line that is neither blank nor the word exit.  Connections are
    attempted only to domains sent to the defender. *)
Theorem interactive_queries_are_dotted (net : nat -> replies) (lines : list string) :
  let run := interactive_input_loop str_of_json repr net lines in
  Forall (fun d => PyStr.contains "." d = true /\
                   exists line, line ∈ lines /\
                     PyStr.strip line <> "" /\
                     PyStr.lower (PyStr.strip line) <> "exit" /\
                     d = interactive_domain (PyStr.strip line))
         (Spec.posted run.1) /\
  Spec.connected run.1 `sublist_of` Spec.posted run.1.
Proof.
  cbv zeta. unfold interactive_input_loop.
  assert (H : forall i,
            let run := read_lines str_of_json repr net i lines in
            Forall (fun d => PyStr.contains "." d = true /\
                             exists line, line ∈ lines /\
                               PyStr.strip line <> "" /\
                               PyStr.lower (PyStr.strip line) <> "exit" /\
                               d = interactive_domain (PyStr.strip line))
                   (Spec.posted run.1) /\
            Spec.connected run.1 `sublist_of` Spec.posted run.1).
  { cbv zeta. induction lines as [|line rest IH]; intros i.
    - cbn. split; [constructor | reflexivity].
    - assert (Hweaken : forall events,
                Forall (fun d => PyStr.contains "." d = true /\
                          exists l, l ∈ rest /\ PyStr.strip l <> "" /\
                            PyStr.lower (PyStr.strip l) <> "exit" /\
                            d = interactive_domain (PyStr.strip l)) events ->
                Forall (fun d => PyStr.contains "." d = true /\
                          exists l, l ∈ line :: rest /\ PyStr.strip l <> "" /\
                            PyStr.lower (PyStr.strip l) <> "exit" /\
                            d = interactive_domain (PyStr.strip l)) events).
      { apply List.Forall_impl. intros d (Hd & l & Hl & Hrest). split; [exact Hd|].
        exists l. split; [now right | exact Hrest]. }
      cbn [read_lines].
      destruct (String.eqb (PyStr.lower (PyStr.strip line)) "exit") eqn:Hexit.
      + cbn. split; [constructor | reflexivity].
      + destruct (String.eqb (PyStr.strip line) "") eqn:Hblank.
        * destruct (IH (S i)) as [Hp Hc]. split; [now apply Hweaken | exact Hc].
        * destruct (handle_domain_traffic (interactive_domain (PyStr.strip line))
                      (from_defender (net i)) (from_attacker (net i)))
            as [Hposted Hconn].
          assert (Hhere : PyStr.contains "." (interactive_domain (PyStr.strip line)) = true /\
                    exists l, l ∈ line :: rest /\ PyStr.strip l <> "" /\
                      PyStr.lower (PyStr.strip l) <> "exit" /\
                      interactive_domain (PyStr.strip line)
                      = interactive_domain (PyStr.strip l)).
          { split; [apply interactive_domain_dotted|]. exists line.
            split; [now left|]. split; [now apply String.eqb_neq|].
            split; [now apply String.eqb_neq | reflexivity]. }
          destruct (handle_domain str_of_json repr _ _ _) as [events [[]|e]];
            cbn [fst snd] in *.
          -- destruct (IH (S i)) as [Hp Hc].
             destruct (read_lines str_of_json repr net (S i) rest) as [later r].
             cbn [fst snd] in *. rewrite posted_app, connected_app, Hposted. split.
             ++ constructor; [exact Hhere | now apply Hweaken].
             ++ destruct Hconn as [-> | ->]; cbn [app];
                  [now apply sublist_cons | now apply sublist_skip].
          -- rewrite Hposted. split.
             ++ constructor; [exact Hhere | constructor].
             ++ destruct Hconn as [-> | ->]; [apply sublist_nil_l | reflexivity]. }
  specialize (H O). cbv zeta in H.
  destruct (read_lines str_of_json repr net 0 lines) as [events r].
  exact H.
Qed.

(** X15.  The word exit, in any mix of cases and with white space around
    it, ends the interactive loop: what the loop does is the same whatever
    lines follow it. *)
Theorem exit_ends_the_interactive_loop (net : nat -> replies)
    (before after after' : list string) (word : string) :
  PyStr.lower (PyStr.strip word) = "exit" ->
  interactive_input_loop str_of_json repr net (before ++ word :: after)
  = interactive_input_loop str_of_json repr net (before ++ word :: after').
Proof.
  intros Hexit. unfold interactive_input_loop.
  assert (H : forall i,
            read_lines str_of_json repr net i (before ++ word :: after)
            = read_lines str_of_json repr net i (before ++ word :: after')).
  { induction before as [|line rest IH]; intros i.
    - cbn [app read_lines]. now rewrite Hexit.
    - cbn [app read_lines]. rewrite (IH (S i)). reflexivity. }
  now rewrite (H O).
Qed.

(** X16.  A reply of the defender that is JSON but no object is not
    caught: [handle_domain] raises the [AttributeError] of [data.get]
    after it has logged the domain and sent it, without logging a verdict
    and without a connection, and the loop over the set ends there with
    the exception, the domains after it unhandled. *)
Theorem json_without_object_ends_the_loop (poll : nat -> bool) (net : nat -> replies)
    (i : nat) (d : string) (rest : list string) (resp : http_response) (data : json) :
  poll i = false ->
  from_defender (net i) = Ok resp ->
  raise_for_status resp = Ok tt ->
  response_json resp = Ok data ->
  (forall items, data <> JObj items) ->
  handle_set str_of_json repr poll net i (d :: rest)
  = ([Log ("Generated/Requested domain: " +:+ d); PostToDefender d],
     Raise (AttributeError "object has no attribute 'get'")).
Proof.
  intros Hpoll Hpost Hstatus Hjson Hdata.
  cbn [handle_set]. rewrite Hpoll.
  unfold handle_domain, send_to_defender. rewrite Hpost. cbn [mbind result_bind].
  rewrite Hstatus, Hjson. cbn [mbind result_bind].
  destruct data; try reflexivity.
  exfalso. now apply (Hdata items).
Qed.

End VictimTraffic.

Lemma exit_ends_the_interactive_loop_witness :
  VictimLoops.interactive_input_loop Examples.show Examples.quoted
    (fun _ => VictimLoops.Replies Examples.unreachable Examples.unreachable)
    (["example.com"] ++ " EXIT " :: ["evil.com"])
  = VictimLoops.interactive_input_loop Examples.show Examples.quoted
      (fun _ => VictimLoops.Replies Examples.unreachable Examples.unreachable)
      (["example.com"] ++ " EXIT " :: []).
Proof.
  apply (exit_ends_the_interactive_loop Examples.show Examples.quoted). reflexivity.
Defined.

Lemma json_without_object_ends_the_loop_witness :
  VictimLoops.handle_set Examples.show Examples.quoted (fun _ => false)
    (fun _ => VictimLoops.Replies
                (Ok (Victim.HttpResponse (Ok tt) (Ok (Victim.JArr [])) 200 "[]"))
                Examples.connected)
    0 ("mbhmeca4lfmu.com" :: ["s4x7fvuebjla.net"])
  = ([Victim.Log ("Generated/Requested domain: " +:+ "mbhmeca4lfmu.com");
      Victim.PostToDefender "mbhmeca4lfmu.com"],
     Raise (AttributeError "object has no attribute 'get'")).
Proof.
  eapply (json_without_object_ends_the_loop Examples.show Examples.quoted);
    try reflexivity.
  intros items. discriminate.
Defined.


(** ** The victim and the defender together *)

Section Verdicts.

Import Victim Defender DefenderApi Lab.

Variable dumps : json -> string.
Variable round4 : Q -> Q.
Variable fixed3 : Q -> string.
Variable str_of_json : json -> string.
Variable repr : string -> string.







End Verdicts.

(** ** The victim and a defender whose standard output can fail *)

Section Outage.

Import Victim Defender DefenderApi Lab.

Variable dumps : json -> string.
Variable round4 : Q -> Q.
Variable fixed3 : Q -> string.
Variable str_of_json : json -> string.
Variable repr : string -> string.
Variable print : string -> result exn unit.
Variable error_page : string.


(** With a standard output that takes every line, [persist_query] and
    [api_check] are the functions of [DefenderApi]. *)
Lemma persist_query_printed (q : query) (f : document) :
  (forall line, print line = Ok tt) ->
  Printing.persist_query print q f
  = ((persist_query q f).1, Ok (persist_query q f).2).
Proof.
  intros Hprint. unfold Printing.persist_query, persist_query, Printing.log.
  destruct f as [[v|e]|]; try reflexivity.
  destruct v; try reflexivity; now rewrite Hprint.
Qed.

Lemma api_check_printed (body : option string) (ts : string) (sv : server) :
  (forall line, print line = Ok tt) ->
  Printing.api_check print round4 fixed3 body ts sv
  = match api_check round4 fixed3 body ts sv with
    | (logged, Ok (sv', r)) => (logged, (sv', Ok r))
    | (logged, Raise e) => (logged, (sv, Raise e))
    end.
Proof.
  intros Hprint. unfold Printing.api_check, api_check.
  destruct body as [domain|]; [|reflexivity].
  rewrite (classify_domain_printed print _ _ Hprint).
  destruct (classify_domain (globals sv) (PyStr.strip domain))
    as [logs [[[v c] s]|e]]; [|reflexivity].
  rewrite (persist_query_printed _ _ Hprint).
  destruct (persist_query _ (queries_file sv)) as [unsaved saved]. cbn [fst snd].
  unfold Printing.log. now rewrite Hprint.
Qed.






End Outage.


